(** * Yellow Camera upload function (netlify/functions/upload.js)

    A shallow embedding of the Netlify function that receives a multipart
    upload and stores every clip in Google Drive, followed by the
    properties its specification states.

    JavaScript strings are sequences of UTF-16 code units; they are
    modelled as [list N].  The external services (the busboy multipart
    parser, the Drive API, the clock, the Unicode case tables) are the
    variables of the section. *)

From Stdlib Require Import NArith Ascii String DecimalString.
From stdpp Require Import base list gmap.

Local Open Scope N_scope.
Set Warnings "-register-all".

(** ** Strings *)

(** The content of a [Buffer]. *)
Abbreviation bytes := (list N).

Abbreviation jsstring := (list N).

(** Code units of an ASCII literal. *)
Definition u (s : string) : jsstring :=
  N_of_ascii <$> list_ascii_of_string s.

(** Truthiness of a possibly missing string: [undefined] and [''] are falsy. *)
Definition truthy (o : option jsstring) : bool :=
  match o with
  | Some (_ :: _) => true
  | _ => false
  end.

(** [o || d] for a possibly missing string [o] and a default [d]. *)
Definition or_default (o : option jsstring) (d : jsstring) : jsstring :=
  match o with
  | Some (c :: s) => c :: s
  | _ => d
  end.

(** [String.prototype.includes]. *)
Fixpoint starts_with (needle s : jsstring) : bool :=
  match needle, s with
  | [], _ => true
  | a :: needle', b :: s' => (a =? b) && starts_with needle' s'
  | _ :: _, [] => false
  end.

Fixpoint includes (needle s : jsstring) : bool :=
  starts_with needle s ||
  match s with
  | [] => false
  | _ :: s' => includes needle s'
  end.

(** [Array.prototype.join]. *)
Fixpoint join (sep : jsstring) (parts : list jsstring) : jsstring :=
  match parts with
  | [] => []
  | [p] => p
  | p :: ps => p ++ sep ++ join sep ps
  end.

(** ** Regular expressions used by the function

    The two filename patterns are anchored sequences of one-character
    atoms; the two [replace] calls substitute every match of a
    one-character class, and [/\\n/g] every two-unit escape. *)

Inductive atom : Type :=
  | Lit (c : N)
  | Digit
  | OneOf (cs : list N).

Definition is_digit (c : N) : bool := (48 <=? c) && (c <=? 57).

Definition atom_matches (a : atom) (c : N) : bool :=
  match a with
  | Lit c' => c =? c'
  | Digit => is_digit c
  | OneOf cs => existsb (N.eqb c) cs
  end.

(** [/^a1 a2 ... an$/.test(s)]: without the [m] flag, [$] is the end of input. *)
Fixpoint test_anchored (p : list atom) (s : jsstring) : bool :=
  match p, s with
  | [], [] => true
  | a :: p', c :: s' => atom_matches a c && test_anchored p' s'
  | _, _ => false
  end.

Definition lits (s : jsstring) : list atom := Lit <$> s.

(** [/^GOPR\d{4}\.MP4$/] *)
Definition re_hero3 : list atom :=
  lits (u "GOPR") ++ replicate 4 Digit ++ lits (u ".MP4").

(** [/^G[HO]\d{2}\d{4}\.MP4$/] *)
Definition re_chaptered : list atom :=
  [Lit 71; OneOf (u "HO")] ++ replicate 2 Digit ++ replicate 4 Digit
  ++ lits (u ".MP4").

(** [/[^A-Za-z0-9_-]/]: the units the camera-code sanitiser deletes. *)
Definition code_unit_ok (c : N) : bool :=
  ((65 <=? c) && (c <=? 90)) || ((97 <=? c) && (c <=? 122))
  || is_digit c || (c =? 95) || (c =? 45).

(** [s.replace(/[^A-Za-z0-9_-]/g, '')] *)
Fixpoint strip_code (s : jsstring) : jsstring :=
  match s with
  | [] => []
  | c :: s' => if code_unit_ok c then c :: strip_code s' else strip_code s'
  end.

(** [s.replace(/[:.]/g, '-')] *)
Fixpoint slugify (s : jsstring) : jsstring :=
  match s with
  | [] => []
  | c :: s' => (if (c =? 58) || (c =? 46) then 45 else c) :: slugify s'
  end.

(** [s.replace(/\\n/g, '\n')]: backslash (92) followed by [n] (110)
    becomes a line feed (10); matches are found left to right. *)
Fixpoint unescape_newlines (s : jsstring) : jsstring :=
  match s with
  | [] => []
  | c :: s' =>
      match s' with
      | d :: s'' =>
          if (c =? 92) && (d =? 110) then 10 :: unescape_newlines s''
          else c :: unescape_newlines s'
      | [] => [c]
      end
  end.

(** ** JSON.stringify

    Only the values the function serialises: booleans, the non-negative
    integers [uploads.length] and [buffer.length], strings, arrays and
    objects whose properties are all defined. *)

Inductive json : Type :=
  | JBool (b : bool)
  | JNum (n : N)
  | JStr (s : jsstring)
  | JArr (items : list json)
  | JObj (props : list (jsstring * json)).

Definition hex_digit (n : N) : N :=
  if n <? 10 then 48 + n else 87 + n.

(** [\uXXXX] with lower-case hexadecimal digits. *)
Definition unicode_escape (c : N) : jsstring :=
  [92; 117; hex_digit (c / 4096 mod 16); hex_digit (c / 256 mod 16);
   hex_digit (c / 16 mod 16); hex_digit (c mod 16)].

Definition is_high_surrogate (c : N) : bool := (55296 <=? c) && (c <=? 56319).
Definition is_low_surrogate (c : N) : bool := (56320 <=? c) && (c <=? 57343).

Definition escape_unit (c : N) : jsstring :=
  if c =? 8 then u "\b"
  else if c =? 9 then u "\t"
  else if c =? 10 then u "\n"
  else if c =? 12 then u "\f"
  else if c =? 13 then u "\r"
  else if c =? 34 then [92; 34]
  else if c =? 92 then [92; 92]
  else if c <? 32 then unicode_escape c
  else if is_high_surrogate c || is_low_surrogate c then unicode_escape c
  else [c].

(** The body of QuoteJSONString: a surrogate pair is copied, a lone
    surrogate is escaped. *)
Fixpoint quote_units (s : jsstring) : jsstring :=
  match s with
  | [] => []
  | c :: s' =>
      match s' with
      | d :: s'' =>
          if is_high_surrogate c && is_low_surrogate d
          then c :: d :: quote_units s''
          else escape_unit c ++ quote_units s'
      | [] => escape_unit c
      end
  end.

Definition quote_json (s : jsstring) : jsstring := [34] ++ quote_units s ++ [34].

Definition decimal (n : N) : jsstring :=
  u (NilEmpty.string_of_uint (N.to_uint n)).

Fixpoint JSON_stringify (j : json) : jsstring :=
  match j with
  | JBool true => u "true"
  | JBool false => u "false"
  | JNum n => decimal n
  | JStr s => quote_json s
  | JArr items => [91] ++ join [44] (List.map JSON_stringify items) ++ [93]
  | JObj props =>
      [123]
      ++ join [44]
           (List.map (fun kv => quote_json (fst kv) ++ [58] ++ JSON_stringify (snd kv))
              props)
      ++ [125]
  end.

(** ** Data of a request *)

Record JsError : Type := mkError { message : option jsstring }.

Definition Error (msg : jsstring) : JsError := mkError (Some msg).

(** The Netlify event. *)
Record Event : Type := mkEvent {
  httpMethod : jsstring;
  headers : option (gmap jsstring jsstring);
  body : option jsstring;
  isBase64Encoded : bool;
}.

(** What busboy emits while it reads the body. *)
Inductive BusboyEvent : Type :=
  | OnField (name value : jsstring)
  | OnFile (fieldname : jsstring) (filename mimeType : option jsstring)
      (chunks : list bytes).

(** An element of [files]. *)
Record FilePart : Type := mkFilePart {
  fieldname : jsstring;
  filename : option jsstring;
  mimeType : option jsstring;
  buffer : bytes;
  size : N;
}.

Record Parsed : Type := mkParsed {
  fields : gmap jsstring jsstring;
  files : list FilePart;
}.

(** [process.env] *)
Record Env : Type := mkEnv {
  GDRIVE_CLIENT_EMAIL : option jsstring;
  GDRIVE_PRIVATE_KEY : option jsstring;
  GDRIVE_FOLDER_ID : option jsstring;
}.

Record Credentials : Type := mkCredentials {
  client_email : jsstring;
  private_key : jsstring;
}.

(** The authenticated Drive handle: [google.drive({ version, auth })]. *)
Record Drive : Type := mkDrive {
  version : jsstring;
  credentials : Credentials;
  scopes : list jsstring;
}.

Record FileMetadata : Type := mkFileMetadata {
  name : jsstring;
  parents : list jsstring;
  description : jsstring;
}.

Record Media : Type := mkMedia {
  media_mimeType : jsstring;
  media_body : bytes;
}.

(** The argument of [drive.files.create]. *)
Record CreateRequest : Type := mkCreateRequest {
  requestBody : FileMetadata;
  media : Media;
  request_fields : jsstring;
}.

(** [result.data] *)
Record CreateData : Type := mkCreateData {
  data_id : jsstring;
  data_name : jsstring;
}.

(** An element of [uploads]. *)
Record Upload : Type := mkUpload {
  upload_id : jsstring;
  upload_name : jsstring;
  originalName : jsstring;
  verified : bool;
  sizeBytes : N;
}.

Record Response : Type := mkResponse {
  statusCode : N;
  response_headers : list (jsstring * jsstring);
  response_body : jsstring;
}.

(** What a run does to the outside world, in order. *)
Inductive Effect : Type :=
  | BusboyRun (hdrs : gmap jsstring jsstring) (input : bytes)
  | DriveCreate (drive : Drive) (req : CreateRequest)
  | ConsoleError (err : JsError).

(** ** The specification's vocabulary *)

(** A code unit [c] equals the pattern unit [y] up to ASCII case, as under
    the [i] flag of a regular expression without the [u] flag. *)
Definition unit_ci (c y : N) : Prop :=
  c = y ∨ (65 ≤ y ≤ 90 ∧ c = y + 32).

Definition eq_ci (s pat : jsstring) : Prop := Forall2 unit_ci s pat.

(** Exactly [n] decimal digits. *)
Definition digits (n : nat) (s : jsstring) : Prop :=
  length s = n ∧ Forall (fun c => 48 ≤ c ≤ 57) s.

(** [/^GOPR\d{4}\.MP4$/i] *)
Definition spec_hero3 (s : jsstring) : Prop :=
  ∃ a ds b, eq_ci a (u "GOPR") ∧ digits 4 ds ∧ eq_ci b (u ".MP4")
            ∧ s = a ++ ds ++ b.

(** [/^G[HO]\d{6}\.MP4$/i] *)
Definition spec_chaptered (s : jsstring) : Prop :=
  ∃ g h ds b, eq_ci g (u "G") ∧ (eq_ci h (u "H") ∨ eq_ci h (u "O"))
              ∧ digits 6 ds ∧ eq_ci b (u ".MP4") ∧ s = g ++ h ++ ds ++ b.

Definition spec_known_device (s : jsstring) : Prop :=
  spec_hero3 s ∨ spec_chaptered s.

(** The units that occur in an upper-cased name matched by either pattern. *)
Definition in_alphabet (c : N) : bool :=
  is_digit c || existsb (N.eqb c) (u "GHOPRM.").

(** The fact about the Unicode case tables the classifier relies on: the
    upper-case form of non-ASCII text never consists of digits, [.] and
    the letters G, H, O, P, R, M alone. *)
Definition case_tables_ok (upperNonAscii : jsstring -> jsstring) : Prop :=
  ∀ run, run ≠ [] → Forall (fun c => 128 ≤ c) run →
         Exists (fun c => in_alphabet c = false) (upperNonAscii run).

(** What an atom accepts once the subject has been upper-cased. *)
Definition atom_spec (a : atom) (c : N) : Prop :=
  match a with
  | Lit y => unit_ci c y
  | Digit => 48 ≤ c ≤ 57
  | OneOf ys => Exists (unit_ci c) ys
  end.

(** Atoms written with upper-case letters, digits and punctuation only. *)
Definition upper_atom (a : atom) : Prop :=
  match a with
  | Lit y => y < 97
  | Digit => True
  | OneOf ys => Forall (fun y => y < 97) ys
  end.

(** An atom that accepts units of the alphabet only. *)
Definition alphabet_atom (a : atom) : Prop :=
  ∀ c, atom_matches a c = true → in_alphabet c = true.

(** A unit the sanitiser keeps: a letter, a digit, [_] or [-]. *)
Definition allowed (c : N) : Prop :=
  65 ≤ c ≤ 90 ∨ 97 ≤ c ≤ 122 ∨ 48 ≤ c ≤ 57 ∨ c = 95 ∨ c = 45.

#[global] Instance allowed_dec c : Decision (allowed c).
Proof. unfold allowed. apply _. Defined.

(** [needle] occurs in [s]. *)
Definition contains (needle s : jsstring) : Prop :=
  ∃ pre post, s = pre ++ needle ++ post.

(** The camera code that ends up in the remote name, for a submitted
    [camera_code] field. *)
Definition expected_code (code : jsstring) : jsstring :=
  if decide (code = []) then u "no-code"
  else if decide (filter allowed code = []) then u "NA"
  else filter allowed code.

(** The file part the ['file'] listener stores for an event. *)
Definition part_of (e : BusboyEvent) : option FilePart :=
  match e with
  | OnField _ _ => None
  | OnFile fieldname filename mimeType chunks =>
      Some (mkFilePart fieldname filename mimeType (concat chunks)
              (N.of_nat (length (concat chunks))))
  end.

(** A description line that is present only for a non-empty value. *)
Definition optional (label value : jsstring) : list jsstring :=
  if decide (value = []) then [] else [label ++ value].

(** A part of the body that is not a file. *)
Definition is_field (e : BusboyEvent) : Prop :=
  match e with
  | OnField _ _ => True
  | OnFile _ _ _ _ => False
  end.

(** A configuration value that is neither absent nor empty. *)
Definition present (o : option jsstring) : Prop :=
  ∃ s, o = Some s ∧ s ≠ [].

Definition configured (env : Env) : Prop :=
  present (GDRIVE_CLIENT_EMAIL env) ∧ present (GDRIVE_PRIVATE_KEY env)
  ∧ present (GDRIVE_FOLDER_ID env).

(** The handle and the folder a complete configuration yields. *)
Definition client_of (env : Env) : Drive * jsstring :=
  (mkDrive (u "v3")
     (mkCredentials (default [] (GDRIVE_CLIENT_EMAIL env))
        (unescape_newlines (default [] (GDRIVE_PRIVATE_KEY env))))
     [u "https://www.googleapis.com/auth/drive.file"],
   default [] (GDRIVE_FOLDER_ID env)).

(** The requests sent to Drive during a run, in order. *)
Fixpoint creates (t : list Effect) : list CreateRequest :=
  match t with
  | [] => []
  | DriveCreate _ req :: t' => req :: creates t'
  | _ :: t' => creates t'
  end.

(** ** A small world to run the function in *)

Module Demo.

(** Non-ASCII text is left as it is. *)
Definition upper (run : jsstring) : jsstring := run.

(** The state counts the files stored; the clock advances with it. *)
Definition now (w : nat) : jsstring :=
  u "2024-01-02T03:04:0" ++ decimal (N.of_nat w) ++ u ".000Z".

Definition Buffer_from (text : jsstring) (base64 : bool) : bytes := text.

(** A parser that emits the given events and finishes. *)
Definition busboy (evs : list BusboyEvent) (hdrs : gmap jsstring jsstring)
    (input : bytes) : list BusboyEvent * option JsError :=
  (evs, None).

(** A backend that rejects empty files. *)
Definition create (d : Drive) (req : CreateRequest) (w : nat)
  : nat * (JsError + CreateData) :=
  match media_body (media req) with
  | [] => (w, inl (Error (u "quota exceeded")))
  | _ :: _ =>
      (S w,
       inr (mkCreateData (u "file-" ++ decimal (N.of_nat w)) (name (requestBody req))))
  end.

Definition multipart : gmap jsstring jsstring :=
  {[ u "content-type" := u "multipart/form-data; boundary=x" ]}.

Definition post : Event := mkEvent (u "POST") (Some multipart) (Some (u "...")) false.

Definition env : Env :=
  mkEnv (Some (u "uploader@example.test")) (Some (u "-----BEGIN\nKEY\n-----END"))
    (Some (u "folder-1")).

Definition clip (fname : string) (content : bytes) : BusboyEvent :=
  OnFile (u "clip") (Some (u fname)) (Some (u "video/mp4")) [content].

(** A POST request with a JSON body. *)
Definition plain : Event :=
  mkEvent (u "POST") (Some {[ u "Content-Type" := u "application/json" ]})
    (Some (u "{}")) false.

Definition preflight : Event := mkEvent (u "OPTIONS") None None false.

(** A configuration without the private key. *)
Definition bare_env : Env :=
  mkEnv (Some (u "uploader@example.test")) None (Some (u "folder-1")).

Definition one_clip : list BusboyEvent := [clip "random.mov" [1; 2; 3]].

Definition empty_code : list BusboyEvent :=
  [OnField (u "camera_code") []; clip "GOPR0007.MP4" [1; 2; 3]].

Definition spaced_code : list BusboyEvent :=
  [OnField (u "camera_code") (u "cam 07!"); clip "GOPR0007.MP4" [1; 2; 3]].

Definition fields_only : list BusboyEvent :=
  [OnField (u "camera_id") (u "7"); OnField (u "location") (u "pier")].

Definition two_clips : list BusboyEvent :=
  [clip "GOPR0007.MP4" [1; 2; 3]; clip "random.mov" [4]].

(** The second of three files is empty, so Drive rejects it. *)
Definition three_clips : list BusboyEvent :=
  [clip "a.mp4" [1]; clip "b.mp4" []; clip "c.mp4" [3]].

(** A POST request whose only content-type header is spelled in capitals. *)
Definition shouting : Event :=
  mkEvent (u "POST")
    (Some {[ u "CONTENT-TYPE" := u "multipart/form-data; boundary=x" ]})
    (Some (u "...")) false.


(** A file part that came without a filename. *)
Definition nameless : FilePart := mkFilePart (u "clip") None None [1; 2] 2.

Definition twice_named : list BusboyEvent :=
  [OnField (u "name") (u "Ann"); clip "a.mp4" [1]; OnField (u "name") (u "Bea");
   clip "b.mp4" [2]].

End Demo.

(** ** The function *)

Section Upload.

(** [String.prototype.toUpperCase] on a maximal run of non-ASCII code
    units (the Unicode case tables). *)
Variable upperNonAscii : jsstring -> jsstring.

(** The state of everything outside the function: the clock and the
    Drive backend. *)
Variable World : Type.

(** [new Date().toISOString()] *)
Variable toISOString : World -> jsstring.

(** [Buffer.from(text, encoding)], the flag choosing ['base64'] over ['utf8']. *)
Variable Buffer_from : jsstring -> bool -> bytes.

(** The busboy parser fed with the whole body: the events it emits,
    then ['error'] with an error or ['finish']. *)
Variable busboy : gmap jsstring jsstring -> bytes -> list BusboyEvent * option JsError.

(** [drive.files.create]: the call resolves with [result.data] or rejects. *)
Variable drive_files_create :
  Drive -> CreateRequest -> World -> World * (JsError + CreateData).

(** *** Promises as a state, trace and error monad *)

Definition M (A : Type) : Type := World -> World * list Effect * (JsError + A).

Definition resolve {A} (a : A) : M A := fun w => (w, [], inr a).
Definition reject {A} (e : JsError) : M A := fun w => (w, [], inl e).

Definition await {A B} (m : M A) (k : A -> M B) : M B :=
  fun w =>
    match m w with
    | (w1, t1, inr a) =>
        match k a w1 with
        | (w2, t2, r) => (w2, t1 ++ t2, r)
        end
    | (w1, t1, inl e) => (w1, t1, inl e)
    end.

Definition try_catch {A} (m : M A) (h : JsError -> M A) : M A :=
  fun w =>
    match m w with
    | (w1, t1, inl e) =>
        match h e w1 with
        | (w2, t2, r) => (w2, t1 ++ t2, r)
        end
    | (w1, t1, inr a) => (w1, t1, inr a)
    end.

Definition effect (e : Effect) : M unit := fun w => (w, [e], inr tt).

Notation "'let!' x := m 'in' k" := (await m (fun x => k))
  (at level 10, x pattern, m at level 100, k at level 200).

(** *** Helpers *)

Definition ascii_upper (c : N) : N :=
  if (97 <=? c) && (c <=? 122) then c - 32 else c.

Definition flush (run : jsstring) : jsstring :=
  match run with
  | [] => []
  | _ :: _ => upperNonAscii run
  end.

(** ASCII units are upper-cased one by one; [run] collects the non-ASCII
    units met since the last ASCII one. *)
Fixpoint upper_from (run s : jsstring) : jsstring :=
  match s with
  | [] => flush run
  | c :: s' =>
      if c <? 128 then flush run ++ ascii_upper c :: upper_from [] s'
      else upper_from (run ++ [c]) s'
  end.

Definition toUpperCase (s : jsstring) : jsstring := upper_from [] s.

Definition isLikelyGoProName (filename : option jsstring) : bool :=
  if negb (truthy filename) then false
  else
    let upper := toUpperCase (default [] filename) in
    if test_anchored re_hero3 upper then true
    else if test_anchored re_chaptered upper then true
    else false.

Definition content_type_of (hdrs : gmap jsstring jsstring) : jsstring :=
  or_default (hdrs !! u "content-type")
    (or_default (hdrs !! u "Content-Type") []).

(** The ['field'] and ['file'] listeners, applied to the events in order. *)
Fixpoint collect (evs : list BusboyEvent) (acc : Parsed) : Parsed :=
  match evs with
  | [] => acc
  | OnField name value :: evs' =>
      collect evs' (mkParsed (<[name := value]> (fields acc)) (files acc))
  | OnFile fieldname filename mimeType chunks :: evs' =>
      let buffer := concat chunks in
      collect evs'
        (mkParsed (fields acc)
           (files acc
            ++ [mkFilePart fieldname filename mimeType buffer
                  (N.of_nat (length buffer))]))
  end.

Definition parseMultipart (event : Event) : M Parsed :=
  let hdrs := default ∅ (headers event) in
  let contentType := content_type_of hdrs in
  if negb (includes (u "multipart/form-data") contentType) then
    reject (Error (u "Unsupported content type. Expected multipart/form-data."))
  else
    let input := Buffer_from (or_default (body event) []) (isBase64Encoded event) in
    let! _ := effect (BusboyRun hdrs input) in
    match busboy hdrs input with
    | (_, Some err) => reject err
    | (evs, None) => resolve (collect evs (mkParsed ∅ []))
    end.

Definition getDriveClient (env : Env) : M (Drive * jsstring) :=
  let clientEmail := GDRIVE_CLIENT_EMAIL env in
  let privateKeyRaw := or_default (GDRIVE_PRIVATE_KEY env) [] in
  let folderId := GDRIVE_FOLDER_ID env in
  if negb (truthy clientEmail) || negb (truthy (Some privateKeyRaw))
     || negb (truthy folderId) then
    reject (Error (u "Missing one or more env vars: GDRIVE_CLIENT_EMAIL, GDRIVE_PRIVATE_KEY, GDRIVE_FOLDER_ID"))
  else
    let privateKey := unescape_newlines privateKeyRaw in
    let auth := mkCredentials (default [] clientEmail) privateKey in
    resolve
      (mkDrive (u "v3") auth [u "https://www.googleapis.com/auth/drive.file"],
       default [] folderId).

(** *** The handler *)

(** The values computed once per request, before the loop over [files]. *)
Record Request : Type := mkRequest {
  drive : Drive;
  folderId : jsstring;
  nowIso : jsstring;
  cameraId : jsstring;
  cameraCode : jsstring;
  location : jsstring;
  filmed : jsstring;
  nickname : jsstring;
  email : jsstring;
  shareLink : jsstring;
  safeCameraCode : jsstring;
  timestampSlug : jsstring;
}.

Definition original_of (f : FilePart) : jsstring :=
  or_default (filename f) (u "clip.mp4").

Definition newName (r : Request) (original : jsstring) : jsstring :=
  u "YC-" ++ or_default (Some (safeCameraCode r)) (u "NA") ++ u "_"
  ++ timestampSlug r ++ u "_" ++ original.

(** [cond ? label + value : ''] *)
Definition optional_line (label value : jsstring) : jsstring :=
  if truthy (Some value) then label ++ value else [].

Definition descriptionLines (r : Request) (original : jsstring) (verified : bool)
  : list jsstring :=
  List.filter (fun line => truthy (Some line))
    [ u "Yellow Camera Project raw clip";
      u "Original filename: " ++ original;
      u "Camera ID: " ++ cameraId r;
      u "Camera code: " ++ cameraCode r;
      u "Location: " ++ location r;
      optional_line (u "Date filmed: ") (filmed r);
      optional_line (u "Person: ") (nickname r);
      optional_line (u "Contact: ") (email r);
      optional_line (u "Share link: ") (shareLink r);
      u "Upload time: " ++ nowIso r;
      u "Verified Yellow Camera filename pattern: "
      ++ (if verified then u "yes" else u "no") ].

(** The argument of [drive.files.create] for the file [f]. *)
Definition create_request (r : Request) (f : FilePart) : CreateRequest :=
  let original := original_of f in
  let verified := isLikelyGoProName (Some original) in
  mkCreateRequest
    (mkFileMetadata (newName r original) [folderId r]
       (join [10] (descriptionLines r original verified)))
    (mkMedia (or_default (mimeType f) (u "video/mp4")) (buffer f))
    (u "id, name").

Definition call_create (d : Drive) (req : CreateRequest) : M CreateData :=
  fun w =>
    match drive_files_create d req w with
    | (w', r) => (w', [DriveCreate d req], r)
    end.

(** The body of [for (const f of files)]. *)
Fixpoint upload_loop (r : Request) (fs : list FilePart) (uploads : list Upload)
  : M (list Upload) :=
  match fs with
  | [] => resolve uploads
  | f :: fs' =>
      let original := original_of f in
      let verified := isLikelyGoProName (Some original) in
      let! result := call_create (drive r) (create_request r f) in
      upload_loop r fs'
        (uploads
         ++ [mkUpload (data_id result) (data_name result) original verified (size f)])
  end.

Definition json_of_upload (x : Upload) : json :=
  JObj [ (u "id", JStr (upload_id x));
         (u "name", JStr (upload_name x));
         (u "originalName", JStr (originalName x));
         (u "verified", JBool (verified x));
         (u "sizeBytes", JNum (sizeBytes x)) ].

Definition error_json (msg : jsstring) : json :=
  JObj [ (u "ok", JBool false); (u "error", JStr msg) ].

Definition success_json (uploads : list Upload) : json :=
  JObj [ (u "ok", JBool true);
         (u "message",
          JStr (u "Upload complete. Your Yellow Camera clip has been saved. You can now pass the camera on."));
         (u "uploadedCount", JNum (N.of_nat (length uploads)));
         (u "uploads", JArr (json_of_upload <$> uploads)) ].

Definition preflight_response : Response :=
  mkResponse 204
    [ (u "Access-Control-Allow-Origin", u "*");
      (u "Access-Control-Allow-Methods", u "POST, OPTIONS");
      (u "Access-Control-Allow-Headers", u "Content-Type") ]
    [].

Definition json_headers : list (jsstring * jsstring) :=
  [ (u "Content-Type", u "application/json") ].

Definition cors_json_headers : list (jsstring * jsstring) :=
  [ (u "Content-Type", u "application/json");
    (u "Access-Control-Allow-Origin", u "*") ].

Definition make_request (env_drive : Drive * jsstring) (now : jsstring)
    (flds : gmap jsstring jsstring) : Request :=
  let cameraCode := or_default (flds !! u "camera_code") (u "no-code") in
  mkRequest (fst env_drive) (snd env_drive) now
    (or_default (flds !! u "camera_id") (u "unknown-camera"))
    cameraCode
    (or_default (flds !! u "location") (u "unknown-location"))
    (or_default (flds !! u "date_filmed") [])
    (or_default (flds !! u "name") [])
    (or_default (flds !! u "email") [])
    (or_default (flds !! u "share_link") [])
    (strip_code cameraCode)
    (slugify now).

Definition handler (event : Event) (env : Env) : M Response :=
  if bool_decide (httpMethod event = u "OPTIONS") then
    resolve preflight_response
  else if negb (bool_decide (httpMethod event = u "POST")) then
    resolve
      (mkResponse 405 json_headers
         (JSON_stringify (error_json (u "Method Not Allowed"))))
  else
    try_catch
      (let! parsed := parseMultipart event in
       if Nat.eqb (length (files parsed)) 0 then
         resolve
           (mkResponse 400 json_headers
              (JSON_stringify (error_json (u "No video files found in upload."))))
       else
         let! client := getDriveClient env in
         let! now := (fun w => (w, [], inr (toISOString w))) in
         let r := make_request client now (fields parsed) in
         let! uploads := upload_loop r (files parsed) [] in
         resolve
           (mkResponse 200 cors_json_headers
              (JSON_stringify (success_json uploads))))
      (fun err =>
         let! _ := effect (ConsoleError err) in
         resolve
           (mkResponse 500 cors_json_headers
              (JSON_stringify
                 (error_json
                    (or_default (message err)
                       (u "Unexpected error during upload.")))))).

(** *** Vocabulary of the handler's specification *)

Definition hdrs_of (event : Event) : gmap jsstring jsstring :=
  default ∅ (headers event).

Definition input_of (event : Event) : bytes :=
  Buffer_from (or_default (body event) []) (isBase64Encoded event).

(** The request carries a multipart body that busboy reads to the end,
    yielding the fields and file parts [p]. *)
Definition decodes_to (event : Event) (p : Parsed) : Prop :=
  includes (u "multipart/form-data") (content_type_of (hdrs_of event)) = true
  ∧ ∃ evs, busboy (hdrs_of event) (input_of event) = (evs, None)
           ∧ collect evs (mkParsed ∅ []) = p.

(** The state of the world once every request of [reqs] has been sent. *)
Fixpoint drive_world (d : Drive) (reqs : list CreateRequest) (w : World) : World :=
  match reqs with
  | [] => w
  | q :: reqs' => drive_world d reqs' (fst (drive_files_create d q w))
  end.

(** How Drive answers the [j]-th request when the earlier ones were sent
    before it. *)
Definition outcome_at (d : Drive) (reqs : list CreateRequest) (w : World) (j : nat)
  : option (JsError + CreateData) :=
  match reqs !! j with
  | Some q => Some (snd (drive_files_create d q (drive_world d (take j reqs) w)))
  | None => None
  end.

(** The entry of [uploads] for the file [f] stored as [x]. *)
Definition upload_entry (f : FilePart) (x : CreateData) : Upload :=
  mkUpload (data_id x) (data_name x) (original_of f)
    (isLikelyGoProName (Some (original_of f))) (size f).

(** The answer to a failure caught by the handler. *)
Definition error_response (err : JsError) : Response :=
  mkResponse 500 cors_json_headers
    (JSON_stringify
       (error_json (or_default (message err) (u "Unexpected error during upload.")))).

(** The seven ways a run of the handler can go. *)
Inductive Outcome (event : Event) (env : Env) (w : World)
  : World * list Effect * (JsError + Response) → Prop :=
  | OutPreflight :
      httpMethod event = u "OPTIONS" →
      Outcome event env w (w, [], inr preflight_response)
  | OutMethod :
      httpMethod event ≠ u "OPTIONS" → httpMethod event ≠ u "POST" →
      Outcome event env w
        (w, [],
         inr (mkResponse 405 json_headers
                (JSON_stringify (error_json (u "Method Not Allowed")))))
  | OutDecodeError t err :
      httpMethod event = u "POST" →
      parseMultipart event w = (w, t, inl err) →
      t = [] ∨ t = [BusboyRun (hdrs_of event) (input_of event)] →
      Outcome event env w (w, t ++ [ConsoleError err], inr (error_response err))
  | OutNoFiles p :
      httpMethod event = u "POST" → decodes_to event p → files p = [] →
      Outcome event env w
        (w, [BusboyRun (hdrs_of event) (input_of event)],
         inr (mkResponse 400 json_headers
                (JSON_stringify (error_json (u "No video files found in upload.")))))
  | OutNoConfig p :
      httpMethod event = u "POST" → decodes_to event p → files p ≠ [] →
      ¬ configured env →
      Outcome event env w
        (w,
         [BusboyRun (hdrs_of event) (input_of event);
          ConsoleError (Error (u "Missing one or more env vars: GDRIVE_CLIENT_EMAIL, GDRIVE_PRIVATE_KEY, GDRIVE_FOLDER_ID"))],
         inr (error_response (Error (u "Missing one or more env vars: GDRIVE_CLIENT_EMAIL, GDRIVE_PRIVATE_KEY, GDRIVE_FOLDER_ID"))))
  | OutStored p uploads :
      httpMethod event = u "POST" → decodes_to event p → files p ≠ [] →
      configured env →
      length uploads = length (files p) →
      Outcome event env w
        (drive_world (client_of env).1
           (create_request (make_request (client_of env) (toISOString w) (fields p))
            <$> files p) w,
         BusboyRun (hdrs_of event) (input_of event)
         :: (DriveCreate (client_of env).1
             <$> (create_request
                    (make_request (client_of env) (toISOString w) (fields p))
                  <$> files p)),
         inr (mkResponse 200 cors_json_headers
                (JSON_stringify (success_json uploads))))
  | OutRejected p k err :
      httpMethod event = u "POST" → decodes_to event p → configured env →
      (k < length (files p))%nat →
      Outcome event env w
        (drive_world (client_of env).1
           (take (S k)
              (create_request
                 (make_request (client_of env) (toISOString w) (fields p))
               <$> files p)) w,
         BusboyRun (hdrs_of event) (input_of event)
         :: (DriveCreate (client_of env).1
             <$> take (S k)
                   (create_request
                      (make_request (client_of env) (toISOString w) (fields p))
                    <$> files p))
            ++ [ConsoleError err],
         inr (error_response err)).

(** ** Properties of the helpers *)

Lemma test_anchored_Forall2 p s :
  test_anchored p s = true ↔ Forall2 (fun a c => atom_matches a c = true) p s.
Proof.
  revert s. induction p as [|a p IH]; intros [|c s]; simpl.
  - split; [constructor | done].
  - split; [done | inversion 1].
  - split; [done | inversion 1].
  - rewrite andb_true_iff, IH. split.
    + intros [? ?]. by constructor.
    + inversion 1; subst. done.
Qed.

Lemma existsb_eqb_elem (c : N) (ys : list N) :
  existsb (N.eqb c) ys = true ↔ c ∈ ys.
Proof.
  rewrite existsb_exists. split.
  - intros (y & Hy & Heq). apply N.eqb_eq in Heq. subst. by apply list_elem_of_In.
  - intros Hc. exists c. split; [by apply list_elem_of_In | apply N.eqb_refl].
Qed.

Lemma ascii_upper_lit c y :
  y < 97 → (ascii_upper c =? y) = true ↔ unit_ci c y.
Proof.
  intros Hy. unfold ascii_upper, unit_ci. rewrite N.eqb_eq.
  destruct ((97 <=? c) && (c <=? 122)) eqn:E.
  - apply andb_true_iff in E as [E1 E2].
    apply N.leb_le in E1, E2. lia.
  - apply andb_false_iff in E as [E|E]; apply N.leb_gt in E; lia.
Qed.

Lemma ascii_upper_digit c :
  is_digit (ascii_upper c) = true ↔ 48 ≤ c ≤ 57.
Proof.
  unfold is_digit, ascii_upper. rewrite andb_true_iff, !N.leb_le.
  destruct ((97 <=? c) && (c <=? 122)) eqn:E.
  - apply andb_true_iff in E as [E1 E2].
    apply N.leb_le in E1, E2. lia.
  - done.
Qed.

Lemma atom_matches_upper a c :
  upper_atom a → atom_matches a (ascii_upper c) = true ↔ atom_spec a c.
Proof.
  destruct a as [y| |ys]; simpl; intros Ha.
  - by apply ascii_upper_lit.
  - apply ascii_upper_digit.
  - rewrite existsb_exists, Exists_exists. split.
    + intros (y & Hy & Heq). exists y. split; [by apply list_elem_of_In|].
      apply ascii_upper_lit; [|done].
      rewrite Forall_forall in Ha. apply Ha. by apply list_elem_of_In.
    + intros (y & Hy & Heq). exists y. split; [by apply list_elem_of_In|].
      apply ascii_upper_lit; [|done].
      rewrite Forall_forall in Ha. by apply Ha.
Qed.

(** On ASCII text the upper-casing is unit by unit. *)
Lemma toUpperCase_ascii s :
  Forall (fun c => c < 128) s → toUpperCase s = ascii_upper <$> s.
Proof.
  unfold toUpperCase. induction 1 as [|c s Hc _ IH]; simpl; [done|].
  apply N.ltb_lt in Hc. rewrite Hc. simpl. by rewrite IH.
Qed.

(** [test_anchored] after upper-casing, on ASCII text. *)
Lemma test_upper_ascii p s :
  Forall upper_atom p →
  test_anchored p (ascii_upper <$> s) = true ↔ Forall2 atom_spec p s.
Proof.
  intros Hp. rewrite test_anchored_Forall2, Forall2_fmap_r.
  revert s. induction Hp as [|a p Ha _ IH]; intros s.
  - split; inversion 1; constructor.
  - split; inversion 1; subst; constructor;
      try (by apply IH); by apply (atom_matches_upper a).
Qed.

Lemma upper_from_bad run s :
  case_tables_ok upperNonAscii →
  Forall (fun c => 128 ≤ c) run →
  run ≠ [] ∨ Exists (fun c => 128 ≤ c) s →
  Exists (fun c => in_alphabet c = false) (upper_from run s).
Proof.
  intros tables. revert run.
  induction s as [|c s IH]; intros run Hrun Hbad; simpl.
  - destruct Hbad as [Hne|Hex]; [|by inversion Hex].
    destruct run; [done|]. by apply tables.
  - destruct (c <? 128) eqn:E.
    + apply N.ltb_lt in E. apply Exists_app.
      destruct run as [|r run].
      * right. apply Exists_cons_tl. apply IH; [constructor|].
        right. destruct Hbad as [?|Hex]; [done|].
        inversion Hex; subst; [lia | done].
      * left. simpl. by apply tables.
    + apply N.ltb_ge in E. apply IH.
      * apply Forall_app. split; [done | by repeat constructor].
      * left. by destruct run.
Qed.

Lemma toUpperCase_bad s :
  case_tables_ok upperNonAscii →
  ¬ Forall (fun c => c < 128) s →
  Exists (fun c => in_alphabet c = false) (toUpperCase s).
Proof.
  intros tables Hs. apply upper_from_bad; [done|constructor|]. right.
  apply not_Forall_Exists in Hs; [|intros c; apply _].
  eapply Exists_impl; [exact Hs|]. simpl. intros c. lia.
Qed.


(** *** The two patterns against the specification's words *)

Lemma u_alphabet : u "GHOPRM." = [71; 72; 79; 80; 82; 77; 46].
Proof. reflexivity. Qed.

Lemma in_alphabet_ascii c : in_alphabet c = true → c < 128.
Proof.
  unfold in_alphabet, is_digit. rewrite orb_true_iff, andb_true_iff, !N.leb_le.
  rewrite existsb_eqb_elem, u_alphabet. intros [?|Hc]; [lia|].
  repeat (apply elem_of_cons in Hc as [->|Hc]; [lia|]). by apply elem_of_nil in Hc.
Qed.

Lemma test_anchored_alphabet p t :
  Forall alphabet_atom p → test_anchored p t = true →
  Forall (fun c => in_alphabet c = true) t.
Proof.
  intros Hp Ht. apply test_anchored_Forall2 in Ht.
  induction Ht as [|a c p t Hac _ IH]; [constructor|].
  inversion Hp; subst. constructor; [by auto | by apply IH].
Qed.

Lemma alphabet_Lit y : in_alphabet y = true → alphabet_atom (Lit y).
Proof. intros Hy c Hc. simpl in Hc. apply N.eqb_eq in Hc. by subst. Qed.

Lemma alphabet_Digit : alphabet_atom Digit.
Proof. intros c Hc. simpl in Hc. unfold in_alphabet. by rewrite Hc. Qed.

Lemma alphabet_OneOf ys :
  Forall (fun y => in_alphabet y = true) ys → alphabet_atom (OneOf ys).
Proof.
  intros Hys c Hc. simpl in Hc. apply existsb_eqb_elem in Hc.
  rewrite Forall_forall in Hys. by apply Hys.
Qed.

Lemma re_hero3_alphabet : Forall alphabet_atom re_hero3.
Proof.
  repeat constructor;
    first [ apply alphabet_Digit | by apply alphabet_Lit ].
Qed.

Lemma re_chaptered_alphabet : Forall alphabet_atom re_chaptered.
Proof.
  repeat constructor;
    first [ apply alphabet_Digit | by apply alphabet_Lit
          | apply alphabet_OneOf; by repeat constructor ].
Qed.

Lemma re_hero3_upper : Forall upper_atom re_hero3.
Proof. repeat constructor. Qed.

Lemma re_chaptered_upper : Forall upper_atom re_chaptered.
Proof. repeat constructor. Qed.

Lemma atom_spec_ascii p s :
  Forall upper_atom p → Forall2 atom_spec p s → Forall (fun c => c < 128) s.
Proof.
  intros Hp Hs. induction Hs as [|a c p s Hac _ IH]; [constructor|].
  inversion Hp as [|? ? Ha Hp']; subst. constructor; [|by apply IH].
  destruct a as [y| |ys]; simpl in *.
  - unfold unit_ci in Hac. lia.
  - lia.
  - apply Exists_exists in Hac as (y & Hy & Hc).
    rewrite Forall_forall in Ha. specialize (Ha y Hy).
    unfold unit_ci in Hc. lia.
Qed.

Lemma Forall2_lits pat s : Forall2 atom_spec (lits pat) s ↔ eq_ci s pat.
Proof.
  unfold lits, eq_ci. rewrite Forall2_fmap_l. split; intros H.
  - by apply Forall2_flip.
  - by apply Forall2_flip in H.
Qed.

Lemma Forall2_digits n s : Forall2 atom_spec (replicate n Digit) s ↔ digits n s.
Proof.
  unfold digits. revert s. induction n as [|n IH]; intros s; simpl.
  - split.
    + inversion 1. split; [done | constructor].
    + intros [Hl _]. destruct s; [constructor | done].
  - split.
    + inversion 1 as [|? c ? s' Hc Hs']; subst. apply IH in Hs' as [Hl Hd].
      split; [simpl; by rewrite Hl | by constructor].
    + intros [Hl Hd]. destruct s as [|c s]; [done|].
      inversion Hd; subst. constructor; [done|].
      apply IH. split; [by injection Hl | done].
Qed.

Lemma re_hero3_spec s : Forall2 atom_spec re_hero3 s ↔ spec_hero3 s.
Proof.
  unfold re_hero3, spec_hero3. rewrite Forall2_app_inv_l. split.
  - intros (a & rest & Ha & Hrest & ->).
    apply Forall2_app_inv_l in Hrest as (ds & b & Hds & Hb & ->).
    exists a, ds, b. by rewrite <- !Forall2_lits, <- Forall2_digits.
  - intros (a & ds & b & Ha & Hds & Hb & ->).
    exists a, (ds ++ b). split; [by apply Forall2_lits|]. split; [|done].
    apply Forall2_app; [by apply Forall2_digits | by apply Forall2_lits].
Qed.

Lemma OneOf_HO h :
  Forall2 atom_spec [OneOf (u "HO")] h ↔ eq_ci h (u "H") ∨ eq_ci h (u "O").
Proof.
  unfold eq_ci. split.
  - inversion 1 as [|? c ? t Hc Ht]; subst. inversion Ht; subst.
    simpl in Hc. apply Exists_cons in Hc as [Hc|Hc].
    + left. constructor; [exact Hc | constructor].
    + apply Exists_cons in Hc as [Hc|Hc]; [|by inversion Hc].
      right. constructor; [exact Hc | constructor].
  - intros [Hh|Hh]; inversion Hh as [|c ? t ? Hc Ht]; subst;
      inversion Ht; subst; (constructor; [|constructor]); simpl.
    + by apply Exists_cons_hd.
    + apply Exists_cons_tl. by apply Exists_cons_hd.
Qed.

Lemma re_chaptered_spec s : Forall2 atom_spec re_chaptered s ↔ spec_chaptered s.
Proof.
  unfold re_chaptered, spec_chaptered.
  change ([Lit 71; OneOf (u "HO")] ++ replicate 2 Digit ++ replicate 4 Digit
          ++ lits (u ".MP4"))
    with (lits (u "G") ++ [OneOf (u "HO")] ++ replicate 6 Digit ++ lits (u ".MP4")).
  split.
  - intros H.
    apply Forall2_app_inv_l in H as (g & r1 & Hg & H & ->).
    apply Forall2_app_inv_l in H as (h & r2 & Hh & H & ->).
    apply Forall2_app_inv_l in H as (ds & b & Hds & Hb & ->).
    exists g, h, ds, b.
    by rewrite <- OneOf_HO, <- !Forall2_lits, <- Forall2_digits.
  - intros (g & h & ds & b & Hg & Hh & Hds & Hb & ->).
    apply Forall2_app; [by apply Forall2_lits|].
    apply Forall2_app; [by apply OneOf_HO|].
    apply Forall2_app; [by apply Forall2_digits | by apply Forall2_lits].
Qed.

Lemma spec_known_device_ascii s :
  spec_known_device s → Forall (fun c => c < 128) s.
Proof.
  intros [H|H].
  - apply re_hero3_spec in H. eapply atom_spec_ascii; [apply re_hero3_upper | done].
  - apply re_chaptered_spec in H.
    eapply atom_spec_ascii; [apply re_chaptered_upper | done].
Qed.

(** ** The filename classifier *)

(** C1. [isLikelyGoProName] answers [true] exactly on the names that match,
    up to ASCII case, GOPR + four digits + .MP4 or G + H or O + six digits
    + .MP4; it answers [false] on a missing or empty name and on the
    near-misses GOPR123.MP4 and GX010001.MP4.  It is a total function. *)
Theorem isLikelyGoProName_spec :
  case_tables_ok upperNonAscii →
  (∀ s, isLikelyGoProName (Some s) = true ↔ spec_known_device s)
  ∧ isLikelyGoProName None = false
  ∧ isLikelyGoProName (Some []) = false
  ∧ isLikelyGoProName (Some (u "GOPR123.MP4")) = false
  ∧ isLikelyGoProName (Some (u "GX010001.MP4")) = false.
Proof.
  intros tables. split; [|by repeat split].
  intros s. destruct (decide (Forall (fun c => c < 128) s)) as [Hs|Hs].
  - unfold isLikelyGoProName, spec_known_device.
    rewrite <- re_hero3_spec, <- re_chaptered_spec.
    rewrite <- !test_upper_ascii by (apply re_hero3_upper || apply re_chaptered_upper).
    destruct s as [|c s].
    + simpl. split; [done | by intros [?|?]].
    + simpl truthy. cbn [negb].
      change (default [] (Some (c :: s))) with (c :: s).
      rewrite (toUpperCase_ascii _ Hs).
      destruct (test_anchored re_hero3 _); [by split; [left|]|].
      destruct (test_anchored re_chaptered _); [by split; [right|]|].
      split; [done | by intros [?|?]].
  - split.
    + intros H. exfalso.
      pose proof (toUpperCase_bad _ tables Hs) as Hbad.
      apply Exists_exists in Hbad as (c & Hc & Hfalse).
      unfold isLikelyGoProName in H.
      destruct s as [|c0 s]; [done|]. simpl truthy in H. cbn [negb default] in H.
      destruct (test_anchored re_hero3 _) eqn:E1.
      * apply test_anchored_alphabet in E1; [|apply re_hero3_alphabet].
        rewrite Forall_forall in E1. specialize (E1 c Hc). congruence.
      * destruct (test_anchored re_chaptered _) eqn:E2; [|done].
        apply test_anchored_alphabet in E2; [|apply re_chaptered_alphabet].
        rewrite Forall_forall in E2. specialize (E2 c Hc). congruence.
    + intros H. by apply spec_known_device_ascii in H.
Qed.


(** ** Properties of the string helpers *)

Lemma starts_with_spec needle s :
  starts_with needle s = true ↔ ∃ post, s = needle ++ post.
Proof.
  revert s. induction needle as [|a needle IH]; intros s; simpl.
  - split; [by exists s | done].
  - destruct s as [|b s].
    + split; [done | by intros [? ?]].
    + rewrite andb_true_iff, N.eqb_eq, IH. split.
      * intros [-> [post ->]]. by exists post.
      * intros [post Hs]. injection Hs as -> ->. eauto.
Qed.

Lemma includes_spec needle s :
  includes needle s = true ↔ contains needle s.
Proof.
  unfold contains. induction s as [|c s IH]; simpl.
  - rewrite orb_false_r, starts_with_spec. split.
    + intros [post H]. by exists [], post.
    + intros (pre & post & H). symmetry in H.
      apply app_eq_nil in H as [-> H]. exists post. done.
  - rewrite orb_true_iff, starts_with_spec, IH. split.
    + intros [[post H]|(pre & post & H)].
      * by exists [], post.
      * exists (c :: pre), post. by rewrite H.
    + intros ([|c' pre] & post & H).
      * left. by exists post.
      * right. injection H as -> ->. by exists pre, post.
Qed.

Lemma code_unit_ok_allowed c : code_unit_ok c = true ↔ allowed c.
Proof.
  unfold code_unit_ok, allowed, is_digit.
  rewrite !orb_true_iff, !andb_true_iff, !N.leb_le, !N.eqb_eq. tauto.
Qed.

(** The sanitiser keeps exactly the allowed units, in their order. *)
Lemma strip_code_filter s : strip_code s = filter allowed s.
Proof.
  induction s as [|c s IH]; simpl; [done|].
  rewrite filter_cons. destruct (code_unit_ok c) eqn:E.
  - apply code_unit_ok_allowed in E. rewrite decide_True by done. by rewrite IH.
  - rewrite decide_False; [done|]. rewrite <- code_unit_ok_allowed. congruence.
Qed.

Lemma unescape_newlines_cons2 c d s :
  unescape_newlines (c :: d :: s)
  = if (c =? 92) && (d =? 110) then 10 :: unescape_newlines s
    else c :: unescape_newlines (d :: s).
Proof. reflexivity. Qed.

(** An escape in the middle of the key becomes a line feed, whatever
    surrounds it. *)
Lemma unescape_newlines_app a b :
  unescape_newlines (a ++ 92 :: 110 :: b)
  = unescape_newlines a ++ 10 :: unescape_newlines b.
Proof.
  remember (length a) as n eqn:Hn. revert a Hn.
  induction n as [n IH] using lt_wf_ind. intros a ->.
  destruct a as [|c [|d a]].
  - reflexivity.
  - change (unescape_newlines ([c] ++ 92 :: 110 :: b))
      with (if (c =? 92) && (92 =? 110) then 10 :: unescape_newlines (110 :: b)
            else c :: unescape_newlines (92 :: 110 :: b)).
    change (92 =? 110) with false. rewrite andb_false_r. reflexivity.
  - change ((c :: d :: a) ++ 92 :: 110 :: b) with (c :: d :: (a ++ 92 :: 110 :: b)).
    rewrite !unescape_newlines_cons2.
    destruct ((c =? 92) && (d =? 110)).
    + rewrite (IH (length a)); [done | simpl; lia | done].
    + change (d :: a ++ 92 :: 110 :: b) with ((d :: a) ++ 92 :: 110 :: b).
      rewrite (IH (length (d :: a))); [done | simpl; lia | done].
Qed.

(** The first unit of the result is a line feed or the first unit of the
    input. *)
Lemma unescape_newlines_head c s :
  ∃ t, unescape_newlines (c :: s) = 10 :: t ∨ unescape_newlines (c :: s) = c :: t.
Proof.
  destruct s as [|d s]; [by exists []; right|].
  rewrite unescape_newlines_cons2. destruct ((c =? 92) && (d =? 110)); eauto.
Qed.

(** No escape is left in the result. *)
Lemma unescape_newlines_complete s a b :
  unescape_newlines s ≠ a ++ 92 :: 110 :: b.
Proof.
  remember (length s) as n eqn:Hn. revert s a b Hn.
  induction n as [n IH] using lt_wf_ind. intros s a b ->.
  destruct s as [|c [|d s]].
  - simpl. by destruct a.
  - simpl. destruct a as [|? [|? ?]]; done.
  - rewrite unescape_newlines_cons2.
    destruct ((c =? 92) && (d =? 110)) eqn:E.
    + destruct a as [|x a]; [done|]. intros H. injection H as _ H.
      revert H. apply (IH (length s)); [simpl; lia | done].
    + destruct a as [|x a].
      * intros H. simpl app in H.
        destruct (unescape_newlines_head d s) as [t [Ht|Ht]]; rewrite Ht in H.
        -- by injection H.
        -- injection H as -> -> _. done.
      * intros H. injection H as _ H.
        exact (IH (length (d :: s)) ltac:(simpl; lia) (d :: s) a b eq_refl H).
Qed.

(** ** Properties of the decoder and of the client factory *)

Lemma collect_fields evs acc :
  Forall is_field evs → files (collect evs acc) = files acc.
Proof.
  intros H. revert acc. induction H as [|e evs He _ IH]; intros acc; [done|].
  destruct e; [|done]. simpl. by rewrite IH.
Qed.

Lemma parseMultipart_ok event p w :
  decodes_to event p →
  parseMultipart event w
  = (w, [BusboyRun (hdrs_of event) (input_of event)], inr p).
Proof.
  intros (Hct & evs & Hrun & <-). unfold parseMultipart.
  fold (hdrs_of event). fold (input_of event).
  rewrite Hct. simpl. unfold await, effect. by rewrite Hrun.
Qed.

Lemma parseMultipart_unsupported event w :
  includes (u "multipart/form-data") (content_type_of (hdrs_of event)) = false →
  parseMultipart event w
  = (w, [],
     inl (Error (u "Unsupported content type. Expected multipart/form-data."))).
Proof.
  intros Hct. unfold parseMultipart. fold (hdrs_of event). by rewrite Hct.
Qed.

Lemma truthy_present o : truthy o = true ↔ present o.
Proof.
  unfold present. destruct o as [[|c s]|]; simpl.
  - split; [done | intros (s & [= <-] & ?); done].
  - split; [by exists (c :: s) | done].
  - split; [done | by intros (s & ? & ?)].
Qed.

Lemma or_default_present o d : present o → or_default o d = default [] o.
Proof. intros (s & -> & Hs). by destruct s. Qed.

Lemma getDriveClient_ok env w :
  configured env → getDriveClient env w = (w, [], inr (client_of env)).
Proof.
  intros (He & Hk & Hf). unfold getDriveClient, client_of.
  rewrite (or_default_present _ [] Hk).
  apply truthy_present in He, Hf. rewrite He, Hf.
  destruct Hk as (k & -> & Hk). simpl. by destruct k.
Qed.

Lemma getDriveClient_missing env w :
  ¬ configured env →
  getDriveClient env w
  = (w, [],
     inl (Error (u "Missing one or more env vars: GDRIVE_CLIENT_EMAIL, GDRIVE_PRIVATE_KEY, GDRIVE_FOLDER_ID"))).
Proof.
  intros Hno. unfold getDriveClient.
  destruct (truthy (GDRIVE_CLIENT_EMAIL env)) eqn:He; [|done].
  destruct (truthy (GDRIVE_FOLDER_ID env)) eqn:Hf; [|by rewrite orb_true_r].
  destruct (truthy (Some (or_default (GDRIVE_PRIVATE_KEY env) []))) eqn:Hk; [|done].
  exfalso. apply Hno. repeat split; try by apply truthy_present.
  destruct (GDRIVE_PRIVATE_KEY env) as [[|c k]|]; try done. by exists (c :: k).
Qed.

(** ** The loop over the file parts *)

Lemma outcome_at_0 d q reqs w :
  outcome_at d (q :: reqs) w 0 = Some (snd (drive_files_create d q w)).
Proof. reflexivity. Qed.

Lemma outcome_at_S d q reqs w j :
  outcome_at d (q :: reqs) w (S j)
  = outcome_at d reqs (fst (drive_files_create d q w)) j.
Proof. reflexivity. Qed.

(** When Drive accepts every file, the loop sends one request per file, in
    the order of the files, and appends one entry per file. *)
Lemma upload_loop_success r fs ups w :
  (∀ j, (j < length fs)%nat →
        ∃ x, outcome_at (drive r) (create_request r <$> fs) w j = Some (inr x)) →
  ∃ news,
    upload_loop r fs ups w
    = (drive_world (drive r) (create_request r <$> fs) w,
       DriveCreate (drive r) <$> (create_request r <$> fs),
       inr (ups ++ news))
    ∧ length news = length fs
    ∧ ∀ j f, fs !! j = Some f →
        ∃ x, outcome_at (drive r) (create_request r <$> fs) w j = Some (inr x)
             ∧ news !! j = Some (upload_entry f x).
Proof.
  revert ups w. induction fs as [|f fs IH]; intros ups w Hall.
  - exists []. simpl. rewrite app_nil_r. by repeat split.
  - destruct (Hall 0%nat ltac:(simpl; lia)) as [x Hx].
    rewrite fmap_cons, outcome_at_0 in Hx. injection Hx as Hx.
    destruct (drive_files_create (drive r) (create_request r f) w)
      as [w1 o] eqn:Hcall.
    simpl in Hx. subst o.
    destruct (IH (ups ++ [upload_entry f x]) w1) as (news & Hrun & Hlen & Hnews).
    { intros j Hj. destruct (Hall (S j) ltac:(simpl; lia)) as [y Hy].
      rewrite fmap_cons, outcome_at_S, Hcall in Hy. eauto. }
    exists (upload_entry f x :: news). split; [|split].
    + cbn [upload_loop]. unfold await, call_create. rewrite Hcall.
      fold (upload_entry f x). rewrite Hrun.
      rewrite fmap_cons. cbn [drive_world]. rewrite Hcall.
      by rewrite <- app_assoc.
    + simpl. by rewrite Hlen.
    + intros [|j] g Hg.
      * injection Hg as <-. exists x.
        by rewrite fmap_cons, outcome_at_0, Hcall.
      * rewrite fmap_cons, outcome_at_S, Hcall. by apply Hnews.
Qed.

(** When Drive rejects the [k]-th file after accepting the earlier ones,
    the loop stops there: it has sent [k + 1] requests and rejects with
    Drive's error. *)
Lemma upload_loop_failure r fs ups w k e :
  outcome_at (drive r) (create_request r <$> fs) w k = Some (inl e) →
  (∀ j, (j < k)%nat →
        ∃ x, outcome_at (drive r) (create_request r <$> fs) w j = Some (inr x)) →
  upload_loop r fs ups w
  = (drive_world (drive r) (take (S k) (create_request r <$> fs)) w,
     DriveCreate (drive r) <$> take (S k) (create_request r <$> fs),
     inl e).
Proof.
  revert ups w k. induction fs as [|f fs IH]; intros ups w k Hk Hlt; [done|].
  rewrite fmap_cons in *.
  destruct (drive_files_create (drive r) (create_request r f) w)
    as [w1 o] eqn:Hcall.
  destruct k as [|k].
  - rewrite outcome_at_0, Hcall in Hk. injection Hk as ->.
    cbn [upload_loop]. unfold await, call_create. rewrite Hcall.
    cbn [take drive_world]. by rewrite Hcall.
  - destruct (Hlt 0%nat ltac:(lia)) as [x Hx].
    rewrite outcome_at_0, Hcall in Hx. injection Hx as ->.
    rewrite outcome_at_S, Hcall in Hk. cbn [fst] in Hk.
    cbn [upload_loop]. unfold await, call_create. rewrite Hcall.
    rewrite (IH _ w1 k Hk).
    + rewrite firstn_cons. cbn [drive_world]. by rewrite Hcall.
    + intros j Hj. destruct (Hlt (S j) ltac:(lia)) as [y Hy].
      rewrite outcome_at_S, Hcall in Hy. eauto.
Qed.

(** Either Drive accepts every request of a list, or there is a first one
    it rejects. *)
Lemma outcomes_cases d reqs w :
  (∀ j, (j < length reqs)%nat → ∃ x, outcome_at d reqs w j = Some (inr x))
  ∨ ∃ k e, outcome_at d reqs w k = Some (inl e)
           ∧ ∀ j, (j < k)%nat → ∃ x, outcome_at d reqs w j = Some (inr x).
Proof.
  revert w. induction reqs as [|q reqs IH]; intros w.
  - left. intros j Hj. simpl in Hj. lia.
  - destruct (drive_files_create d q w) as [w1 [e|x]] eqn:Hcall.
    + right. exists 0%nat, e. rewrite outcome_at_0, Hcall. split; [done|]. lia.
    + destruct (IH w1) as [Hall|(k & e & Hk & Hlt)].
      * left. intros [|j] Hj.
        -- exists x. by rewrite outcome_at_0, Hcall.
        -- rewrite outcome_at_S, Hcall. apply Hall. simpl in Hj. lia.
      * right. exists (S k), e. rewrite outcome_at_S, Hcall. split; [done|].
        intros [|j] Hj.
        -- exists x. by rewrite outcome_at_0, Hcall.
        -- rewrite outcome_at_S, Hcall. apply Hlt. lia.
Qed.

(** ** The handler *)

Lemma method_post_not_options : u "POST" ≠ u "OPTIONS".
Proof. intros H. vm_compute in H. discriminate. Qed.

(** A decoded POST request with files and a complete configuration runs
    the loop; the response follows the loop's result. *)
Lemma handler_post event env w p :
  httpMethod event = u "POST" → decodes_to event p → files p ≠ [] →
  configured env →
  handler event env w
  = match upload_loop (make_request (client_of env) (toISOString w) (fields p))
            (files p) [] w with
    | (w', t, inr uploads) =>
        (w', BusboyRun (hdrs_of event) (input_of event) :: t,
         inr (mkResponse 200 cors_json_headers
                (JSON_stringify (success_json uploads))))
    | (w', t, inl err) =>
        (w', BusboyRun (hdrs_of event) (input_of event) :: t ++ [ConsoleError err],
         inr (mkResponse 500 cors_json_headers
                (JSON_stringify
                   (error_json
                      (or_default (message err)
                         (u "Unexpected error during upload."))))))
    end.
Proof.
  intros Hpost Hdec Hfiles Henv. unfold handler. rewrite Hpost.
  rewrite (bool_decide_eq_false_2 _ method_post_not_options).
  rewrite (bool_decide_eq_true_2 _ eq_refl). cbn [negb].
  unfold try_catch, await at 1. rewrite (parseMultipart_ok _ _ _ Hdec).
  destruct (files p) as [|f fs] eqn:Hfs; [exfalso; by apply Hfiles|].
  cbn [length Nat.eqb].
  unfold await at 1. rewrite (getDriveClient_ok _ _ Henv).
  unfold await at 1. unfold await at 1.
  destruct (upload_loop _ (f :: fs) [] w) as [[w' t] [err|uploads]].
  - unfold await, effect, resolve. by rewrite !app_nil_r.
  - unfold resolve. by rewrite !app_nil_r.
Qed.

Lemma handler_options event env w :
  httpMethod event = u "OPTIONS" →
  handler event env w = (w, [], inr preflight_response).
Proof.
  intros Hm. unfold handler. by rewrite (bool_decide_eq_true_2 _ Hm).
Qed.

Lemma handler_other_method event env w :
  httpMethod event ≠ u "OPTIONS" → httpMethod event ≠ u "POST" →
  handler event env w
  = (w, [],
     inr (mkResponse 405 json_headers
            (JSON_stringify (error_json (u "Method Not Allowed"))))).
Proof.
  intros Ho Hp. unfold handler.
  by rewrite (bool_decide_eq_false_2 _ Ho), (bool_decide_eq_false_2 _ Hp).
Qed.

Lemma handler_try event env :
  httpMethod event = u "POST" →
  handler event env
  = try_catch
      (await (parseMultipart event) (fun parsed =>
         if Nat.eqb (length (files parsed)) 0 then
           resolve
             (mkResponse 400 json_headers
                (JSON_stringify (error_json (u "No video files found in upload."))))
         else
           await (getDriveClient env) (fun client =>
           await (fun w => (w, [], inr (toISOString w))) (fun now =>
           await (upload_loop (make_request client now (fields parsed))
                    (files parsed) [])
             (fun uploads =>
                resolve
                  (mkResponse 200 cors_json_headers
                     (JSON_stringify (success_json uploads))))))))
      (fun err =>
         await (effect (ConsoleError err)) (fun _ =>
           resolve
             (mkResponse 500 cors_json_headers
                (JSON_stringify
                   (error_json
                      (or_default (message err)
                         (u "Unexpected error during upload."))))))).
Proof.
  intros Hpost. unfold handler. rewrite Hpost.
  rewrite (bool_decide_eq_false_2 _ method_post_not_options).
  by rewrite (bool_decide_eq_true_2 _ eq_refl).
Qed.

(** A failure of the decoder is answered with 500 and the decoder's message. *)
Lemma handler_parse_failed event env w t err :
  httpMethod event = u "POST" →
  parseMultipart event w = (w, t, inl err) →
  handler event env w
  = (w, t ++ [ConsoleError err],
     inr (mkResponse 500 cors_json_headers
            (JSON_stringify
               (error_json
                  (or_default (message err)
                     (u "Unexpected error during upload.")))))).
Proof.
  intros Hpost Hparse. rewrite (handler_try _ _ Hpost).
  unfold try_catch, await at 1. rewrite Hparse.
  unfold await, effect, resolve. by rewrite app_nil_r.
Qed.

Lemma handler_empty event env w p :
  httpMethod event = u "POST" → decodes_to event p → files p = [] →
  handler event env w
  = (w, [BusboyRun (hdrs_of event) (input_of event)],
     inr (mkResponse 400 json_headers
            (JSON_stringify (error_json (u "No video files found in upload."))))).
Proof.
  intros Hpost Hdec Hfiles. rewrite (handler_try _ _ Hpost).
  unfold try_catch, await. rewrite (parseMultipart_ok _ _ _ Hdec), Hfiles.
  reflexivity.
Qed.

Lemma handler_unconfigured event env w p :
  httpMethod event = u "POST" → decodes_to event p → files p ≠ [] →
  ¬ configured env →
  handler event env w
  = (w,
     [BusboyRun (hdrs_of event) (input_of event);
      ConsoleError (Error (u "Missing one or more env vars: GDRIVE_CLIENT_EMAIL, GDRIVE_PRIVATE_KEY, GDRIVE_FOLDER_ID"))],
     inr (mkResponse 500 cors_json_headers
            (JSON_stringify
               (error_json (u "Missing one or more env vars: GDRIVE_CLIENT_EMAIL, GDRIVE_PRIVATE_KEY, GDRIVE_FOLDER_ID"))))).
Proof.
  intros Hpost Hdec Hfiles Henv. rewrite (handler_try _ _ Hpost).
  unfold try_catch, await at 1. rewrite (parseMultipart_ok _ _ _ Hdec).
  destruct (files p) as [|f fs]; [exfalso; by apply Hfiles|].
  cbn [length Nat.eqb].
  unfold await at 1. rewrite (getDriveClient_missing _ _ Henv).
  reflexivity.
Qed.

(** The three ways the decoder can end. *)
Lemma parseMultipart_cases event w :
  parseMultipart event w
  = (w, [],
     inl (Error (u "Unsupported content type. Expected multipart/form-data.")))
  ∨ (∃ err,
       parseMultipart event w
       = (w, [BusboyRun (hdrs_of event) (input_of event)], inl err))
  ∨ ∃ p, decodes_to event p.
Proof.
  destruct (includes (u "multipart/form-data") (content_type_of (hdrs_of event)))
    eqn:Hct.
  - right. destruct (busboy (hdrs_of event) (input_of event)) as [evs [err|]] eqn:Hrun.
    + left. exists err. unfold parseMultipart.
      fold (hdrs_of event). fold (input_of event). rewrite Hct. cbn [negb].
      unfold await, effect. by rewrite Hrun.
    + right. exists (collect evs (mkParsed ∅ [])). split; [done|]. by exists evs.
  - left. by apply parseMultipart_unsupported.
Qed.

Lemma configured_dec env : {configured env} + {¬ configured env}.
Proof.
  unfold configured.
  destruct (truthy (GDRIVE_CLIENT_EMAIL env)) eqn:He;
    [|right; rewrite <- !truthy_present; intros (? & _); congruence].
  destruct (truthy (GDRIVE_PRIVATE_KEY env)) eqn:Hk;
    [|right; rewrite <- !truthy_present; intros (_ & ? & _); congruence].
  destruct (truthy (GDRIVE_FOLDER_ID env)) eqn:Hf;
    [|right; rewrite <- !truthy_present; intros (_ & _ & ?); congruence].
  left. by rewrite <- !truthy_present.
Qed.

Lemma creates_app t1 t2 : creates (t1 ++ t2) = creates t1 ++ creates t2.
Proof.
  induction t1 as [|[| |] t1 IH]; simpl; [done | done | | done]. by rewrite IH.
Qed.

Lemma creates_DriveCreate d reqs : creates (DriveCreate d <$> reqs) = reqs.
Proof.
  induction reqs as [|q reqs IH]; [done|].
  rewrite fmap_cons. cbn [creates]. by rewrite IH.
Qed.

(** The loop sends the requests of a prefix of the files, and nothing else. *)
Lemma upload_loop_requests r fs ups w :
  ∃ k, (upload_loop r fs ups w).1.2
       = DriveCreate (drive r) <$> (create_request r <$> take k fs).
Proof.
  revert ups w. induction fs as [|f fs IH]; intros ups w.
  - by exists 0%nat.
  - cbn [upload_loop]. unfold await, call_create.
    destruct (drive_files_create (drive r) (create_request r f) w)
      as [w1 [e|x]].
    + by exists 1%nat.
    + destruct (IH (ups ++
        [mkUpload (data_id x) (data_name x) (original_of f)
           (isLikelyGoProName (Some (original_of f))) (size f)]) w1) as [k Hk].
      exists (S k). destruct (upload_loop r fs _ w1) as [[w2 t2] res].
      simpl in Hk. subst t2. reflexivity.
Qed.

(** Every request that reaches Drive is the request of one of the decoded
    files, built from the values computed before the loop. *)
Lemma handler_requests event env w q :
  q ∈ creates (handler event env w).1.2 →
  ∃ p f, decodes_to event p ∧ configured env ∧ f ∈ files p
         ∧ q = create_request
                 (make_request (client_of env) (toISOString w) (fields p)) f.
Proof.
  destruct (decide (httpMethod event = u "OPTIONS")) as [Ho|Ho].
  { rewrite (handler_options _ _ _ Ho). simpl. by intros ?%elem_of_nil. }
  destruct (decide (httpMethod event = u "POST")) as [Hpost|Hp];
    [|rewrite (handler_other_method _ _ _ Ho Hp); simpl; by intros ?%elem_of_nil].
  destruct (parseMultipart_cases event w) as [Hu|[[err Herr]|[p Hdec]]].
  - rewrite (handler_parse_failed _ _ _ _ _ Hpost Hu). simpl.
    by intros ?%elem_of_nil.
  - rewrite (handler_parse_failed _ _ _ _ _ Hpost Herr). simpl.
    by intros ?%elem_of_nil.
  - destruct (files p) as [|f0 fs0] eqn:Hfiles.
    { rewrite (handler_empty _ _ _ _ Hpost Hdec Hfiles). simpl.
      by intros ?%elem_of_nil. }
    assert (files p ≠ []) as Hne by (by rewrite Hfiles).
    destruct (configured_dec env) as [Henv|Henv];
      [|rewrite (handler_unconfigured _ _ _ _ Hpost Hdec Hne Henv); simpl;
        by intros ?%elem_of_nil].
    rewrite (handler_post _ _ _ _ Hpost Hdec Hne Henv).
    set (r := make_request (client_of env) (toISOString w) (fields p)).
    destruct (upload_loop_requests r (files p) [] w) as [k Hk].
    destruct (upload_loop r (files p) [] w) as [[w' t] res]. simpl in Hk.
    intros Hq. assert (q ∈ create_request r <$> take k (files p)) as Hin.
    { destruct res; simpl in Hq; rewrite Hk in Hq;
        [rewrite creates_app in Hq; simpl in Hq; rewrite app_nil_r in Hq|];
        by rewrite creates_DriveCreate in Hq. }
    apply list_elem_of_fmap in Hin as (f & -> & Hf).
    exists p, f. split; [done|]. split; [done|]. split; [|done].
    apply elem_of_take in Hf as (i & Hi & _). by eapply list_elem_of_lookup_2.
Qed.

Lemma decodes_to_det event p p' :
  decodes_to event p → decodes_to event p' → p = p'.
Proof.
  intros (_ & evs & Hrun & <-) (_ & evs' & Hrun' & <-). congruence.
Qed.

(** The handler always answers: the promise it returns never rejects. *)
Lemma handler_resolves event env w :
  ∃ w' t resp, handler event env w = (w', t, inr resp).
Proof.
  destruct (decide (httpMethod event = u "OPTIONS")) as [Ho|Ho].
  { rewrite (handler_options _ _ _ Ho). eauto. }
  destruct (decide (httpMethod event = u "POST")) as [Hpost|Hp];
    [|rewrite (handler_other_method _ _ _ Ho Hp); eauto].
  destruct (parseMultipart_cases event w) as [Hu|[[err Herr]|[p Hdec]]].
  - rewrite (handler_parse_failed _ _ _ _ _ Hpost Hu). eauto.
  - rewrite (handler_parse_failed _ _ _ _ _ Hpost Herr). eauto.
  - destruct (files p) as [|f0 fs0] eqn:Hfiles.
    { rewrite (handler_empty _ _ _ _ Hpost Hdec Hfiles). eauto. }
    assert (files p ≠ []) as Hne by (by rewrite Hfiles).
    destruct (configured_dec env) as [Henv|Henv];
      [|rewrite (handler_unconfigured _ _ _ _ Hpost Hdec Hne Henv); eauto].
    rewrite (handler_post _ _ _ _ Hpost Hdec Hne Henv).
    destruct (upload_loop _ (files p) [] w) as [[w' t] [err|uploads]]; eauto.
Qed.

(** The remote name of every stored file, spelled out. *)
Lemma handler_names event env w p :
  decodes_to event p →
  Forall (fun q => ∃ f, f ∈ files p
            ∧ name (requestBody q)
              = u "YC-"
                ++ or_default
                     (Some (strip_code
                              (or_default (fields p !! u "camera_code") (u "no-code"))))
                     (u "NA")
                ++ u "_" ++ slugify (toISOString w) ++ u "_" ++ original_of f)
    (creates (handler event env w).1.2).
Proof.
  intros Hdec. apply Forall_forall. intros q Hq.
  apply handler_requests in Hq as (p' & f & Hdec' & _ & Hf & ->).
  rewrite (decodes_to_det _ _ _ Hdec' Hdec) in *. by exists f.
Qed.

(** ** The claims about the handler *)

(** C2 (as the code has it).  When the body has no [camera_code] field,
    the remote name of every stored file begins with [YC-no-code_]: the
    default of the field is applied before the code is sanitised. *)
Theorem no_camera_code_prefix event env w p :
  httpMethod event = u "POST" →
  decodes_to event p →
  fields p !! u "camera_code" = None →
  Forall (fun q => starts_with (u "YC-no-code_") (name (requestBody q)) = true)
    (creates (handler event env w).1.2).
Proof.
  intros _ Hdec Hcode. eapply Forall_impl; [by apply handler_names|].
  intros q (f & _ & ->). rewrite Hcode. apply starts_with_spec. by eexists.
Qed.

Lemma or_default_strip code :
  code ≠ [] →
  or_default (Some (strip_code (or_default (Some code) (u "no-code")))) (u "NA")
  = expected_code code.
Proof.
  intros Hcode. unfold expected_code. rewrite decide_False by done.
  destruct code as [|c code]; [done|]. cbn [or_default].
  rewrite strip_code_filter.
  destruct (filter allowed (c :: code)) as [|x k] eqn:E.
  - by rewrite decide_True.
  - by rewrite decide_False.
Qed.

(** C3 (as the code has it).  For a submitted camera code, the code used in
    the remote name keeps exactly the letters, digits, [_] and [-], in their
    order and case; a non-empty code with no such unit becomes [NA], and an
    empty one becomes the field's default [no-code]. *)
Theorem camera_code_sanitised event env w p code :
  decodes_to event p →
  fields p !! u "camera_code" = Some code →
  strip_code code = filter allowed code
  ∧ (code ≠ [] → filter allowed code = [] → expected_code code = u "NA")
  ∧ (code = [] → expected_code code = u "no-code")
  ∧ Forall (fun q => ∃ f, f ∈ files p
              ∧ name (requestBody q)
                = u "YC-" ++ expected_code code ++ u "_"
                  ++ slugify (toISOString w) ++ u "_" ++ original_of f)
      (creates (handler event env w).1.2).
Proof.
  intros Hdec Hcode. split; [apply strip_code_filter|]. split; [|split].
  - intros Hne Hall. unfold expected_code.
    by rewrite decide_False, decide_True.
  - intros ->. reflexivity.
  - eapply Forall_impl; [by apply handler_names|].
    intros q (f & Hf & ->). exists f. split; [done|]. rewrite Hcode.
    destruct (decide (code = [])) as [->|Hne]; [done|].
    by rewrite or_default_strip.
Qed.

(** C4.  A POST request whose multipart body holds fields but no file part
    is answered with 400 and the fixed error message. *)
Theorem handler_no_files event env w evs :
  httpMethod event = u "POST" →
  includes (u "multipart/form-data") (content_type_of (hdrs_of event)) = true →
  busboy (hdrs_of event) (input_of event) = (evs, None) →
  Forall is_field evs →
  handler event env w
  = (w, [BusboyRun (hdrs_of event) (input_of event)],
     inr (mkResponse 400 [(u "Content-Type", u "application/json")]
            (JSON_stringify
               (JObj [ (u "ok", JBool false);
                       (u "error", JStr (u "No video files found in upload.")) ])))).
Proof.
  intros Hpost Hct Hrun Hfields.
  apply (handler_empty _ _ _ (collect evs (mkParsed ∅ []))); [done| |].
  - split; [done|]. by exists evs.
  - by rewrite collect_fields.
Qed.

(** C5.  A POST request with [N ≥ 1] file parts, all of which Drive stores,
    is answered with 200; the body has [ok: true], [uploadedCount] equal to
    [N] and [N] entries under [uploads], the [j]-th of which describes the
    [j]-th file part. *)
Theorem handler_all_stored event env w p :
  httpMethod event = u "POST" →
  decodes_to event p →
  files p ≠ [] →
  configured env →
  let r := make_request (client_of env) (toISOString w) (fields p) in
  let reqs := create_request r <$> files p in
  (∀ j, (j < length (files p))%nat →
        ∃ x, outcome_at (drive r) reqs w j = Some (inr x)) →
  ∃ uploads,
    handler event env w
    = (drive_world (drive r) reqs w,
       BusboyRun (hdrs_of event) (input_of event) :: (DriveCreate (drive r) <$> reqs),
       inr (mkResponse 200
              [ (u "Content-Type", u "application/json");
                (u "Access-Control-Allow-Origin", u "*") ]
              (JSON_stringify
                 (JObj [ (u "ok", JBool true);
                         (u "message",
                          JStr (u "Upload complete. Your Yellow Camera clip has been saved. You can now pass the camera on."));
                         (u "uploadedCount", JNum (N.of_nat (length (files p))));
                         (u "uploads",
                          JArr ((fun x =>
                                   JObj [ (u "id", JStr (upload_id x));
                                          (u "name", JStr (upload_name x));
                                          (u "originalName", JStr (originalName x));
                                          (u "verified", JBool (verified x));
                                          (u "sizeBytes", JNum (sizeBytes x)) ])
                                <$> uploads)) ]))))
    ∧ length uploads = length (files p)
    ∧ ∀ j f, files p !! j = Some f →
        ∃ x, outcome_at (drive r) reqs w j = Some (inr x)
             ∧ uploads !! j = Some (upload_entry f x).
Proof.
  intros Hpost Hdec Hne Henv r reqs Hall.
  destruct (upload_loop_success r (files p) [] w Hall) as (news & Hrun & Hlen & Hnews).
  exists news. split; [|by split].
  rewrite (handler_post _ _ _ _ Hpost Hdec Hne Henv). fold r. rewrite Hrun.
  cbn [app]. unfold success_json. rewrite Hlen. reflexivity.
Qed.

(** C6.  When Drive rejects a file after storing the earlier ones, the
    handler sends nothing after the rejected request and answers with one
    500 whose body holds [ok] and [error] only; and whenever the answer is a
    200, its [uploads] list has one entry per file part. *)
Theorem upload_failure_aborts event env w p :
  httpMethod event = u "POST" →
  decodes_to event p →
  configured env →
  let r := make_request (client_of env) (toISOString w) (fields p) in
  let reqs := create_request r <$> files p in
  (∀ k e,
     outcome_at (drive r) reqs w k = Some (inl e) →
     (∀ j, (j < k)%nat → ∃ x, outcome_at (drive r) reqs w j = Some (inr x)) →
     handler event env w
     = (drive_world (drive r) (take (S k) reqs) w,
        BusboyRun (hdrs_of event) (input_of event)
        :: (DriveCreate (drive r) <$> take (S k) reqs) ++ [ConsoleError e],
        inr (mkResponse 500
               [ (u "Content-Type", u "application/json");
                 (u "Access-Control-Allow-Origin", u "*") ]
               (JSON_stringify
                  (JObj [ (u "ok", JBool false);
                          (u "error",
                           JStr (or_default (message e)
                                   (u "Unexpected error during upload."))) ])))))
  ∧ (∀ w' t resp,
       handler event env w = (w', t, inr resp) →
       statusCode resp = 200 →
       ∃ uploads, length uploads = length (files p)
                  ∧ response_body resp = JSON_stringify (success_json uploads)).
Proof.
  intros Hpost Hdec Henv r reqs. split.
  - intros k e Hk Hlt.
    assert (files p ≠ []) as Hne.
    { intros Hnil. unfold reqs in Hk. rewrite Hnil in Hk. by destruct k. }
    rewrite (handler_post _ _ _ _ Hpost Hdec Hne Henv). fold r.
    by rewrite (upload_loop_failure r (files p) [] w k e Hk Hlt).
  - intros w' t resp Hrun H200.
    destruct (files p) as [|f0 fs0] eqn:Hfiles.
    { rewrite (handler_empty _ _ _ _ Hpost Hdec Hfiles) in Hrun.
      injection Hrun as _ _ <-. discriminate H200. }
    assert (files p ≠ []) as Hne by (by rewrite Hfiles).
    rewrite (handler_post _ _ _ _ Hpost Hdec Hne Henv) in Hrun. fold r in Hrun.
    destruct (outcomes_cases (drive r) (create_request r <$> files p) w)
      as [Hall|(k & e & Hk & Hlt)].
    + rewrite length_fmap in Hall.
      destruct (upload_loop_success r (files p) [] w Hall)
        as (news & Hloop & Hlen & _).
      rewrite Hloop in Hrun. injection Hrun as _ _ <-.
      exists news. split; [by rewrite Hlen, Hfiles | done].
    + rewrite (upload_loop_failure r (files p) [] w k e Hk Hlt) in Hrun.
      injection Hrun as _ _ <-. discriminate H200.
Qed.

Ltac eq_ci_literals :=
  unfold eq_ci;
  match goal with
  | |- Forall2 _ ?a ?b =>
      let a' := eval vm_compute in a in
      let b' := eval vm_compute in b in
      change (Forall2 unit_ci a' b')
  end;
  repeat (constructor; [first [by left | right; split; [lia | reflexivity]]|]);
  constructor.

Lemma content_type_lower_ci : eq_ci (u "content-type") (u "CONTENT-TYPE").
Proof. eq_ci_literals. Qed.

Lemma content_type_title_ci : eq_ci (u "Content-Type") (u "CONTENT-TYPE").
Proof. eq_ci_literals. Qed.

(** C7.  When no header whose name is [content-type], in any letter case,
    has a value containing [multipart/form-data], and in particular when
    there is no such header, the decoder rejects with the
    unsupported-content-type error and busboy is never started. *)
Theorem unsupported_content_type event w :
  (∀ k v, hdrs_of event !! k = Some v → eq_ci k (u "CONTENT-TYPE") →
          ¬ contains (u "multipart/form-data") v) →
  parseMultipart event w
  = (w, [],
     inl (Error (u "Unsupported content type. Expected multipart/form-data."))).
Proof.
  intros Hno. apply parseMultipart_unsupported.
  destruct (includes _ _) eqn:E; [exfalso|done].
  apply includes_spec in E. unfold content_type_of in E.
  destruct (hdrs_of event !! u "content-type") as [[|c v]|] eqn:Hlower;
    cbn [or_default] in E;
    try (by apply (Hno _ _ Hlower content_type_lower_ci));
    (destruct (hdrs_of event !! u "Content-Type") as [[|c' v']|] eqn:Htitle;
     cbn [or_default] in E;
     try (by apply (Hno _ _ Htitle content_type_title_ci));
     destruct E as (pre & post & E); symmetry in E;
     apply app_eq_nil in E as [_ E]; discriminate E).
Qed.

(** C8.  OPTIONS is answered with 204, an empty body and the three CORS
    headers; a method other than OPTIONS and POST with 405 and the
    method-not-allowed error; busboy is started for POST only. *)
Theorem method_check event env w :
  (httpMethod event = u "OPTIONS" →
   handler event env w
   = (w, [],
      inr (mkResponse 204
             [ (u "Access-Control-Allow-Origin", u "*");
               (u "Access-Control-Allow-Methods", u "POST, OPTIONS");
               (u "Access-Control-Allow-Headers", u "Content-Type") ]
             [])))
  ∧ (httpMethod event ≠ u "OPTIONS" → httpMethod event ≠ u "POST" →
     handler event env w
     = (w, [],
        inr (mkResponse 405 [ (u "Content-Type", u "application/json") ]
               (JSON_stringify
                  (JObj [ (u "ok", JBool false);
                          (u "error", JStr (u "Method Not Allowed")) ])))))
  ∧ (∀ hdrs input,
       BusboyRun hdrs input ∈ (handler event env w).1.2 →
       httpMethod event = u "POST").
Proof.
  split; [apply handler_options|]. split; [apply handler_other_method|].
  intros hdrs input Hin.
  destruct (decide (httpMethod event = u "OPTIONS")) as [Ho|Ho].
  { rewrite (handler_options _ _ _ Ho) in Hin. by apply elem_of_nil in Hin. }
  destruct (decide (httpMethod event = u "POST")) as [Hpost|Hp]; [done|].
  rewrite (handler_other_method _ _ _ Ho Hp) in Hin. by apply elem_of_nil in Hin.
Qed.

(** C9.  With an incomplete configuration the client factory rejects, and
    every POST request with a file part is answered with 500 before
    anything is sent to Drive.  With a complete one, the private key handed
    to the client is the configured key with every backslash-n escape
    turned into a line feed. *)
Theorem missing_configuration env :
  (¬ configured env →
   (∀ w, getDriveClient env w
         = (w, [],
            inl (Error (u "Missing one or more env vars: GDRIVE_CLIENT_EMAIL, GDRIVE_PRIVATE_KEY, GDRIVE_FOLDER_ID"))))
   ∧ ∀ event w p,
       httpMethod event = u "POST" → decodes_to event p → files p ≠ [] →
       ∃ t resp, handler event env w = (w, t, inr resp)
                 ∧ statusCode resp = 500
                 ∧ creates t = []
                 ∧ response_body resp
                   = JSON_stringify
                       (JObj [ (u "ok", JBool false);
                               (u "error",
                                JStr (u "Missing one or more env vars: GDRIVE_CLIENT_EMAIL, GDRIVE_PRIVATE_KEY, GDRIVE_FOLDER_ID")) ]))
  ∧ (configured env →
     ∃ key, GDRIVE_PRIVATE_KEY env = Some key
            ∧ (∀ w, ∃ d folder,
                 getDriveClient env w = (w, [], inr (d, folder))
                 ∧ private_key (credentials d) = unescape_newlines key)
            ∧ (∀ a b, unescape_newlines key ≠ a ++ u "\n" ++ b)
            ∧ (∀ a b, key = a ++ u "\n" ++ b →
                      unescape_newlines key
                      = unescape_newlines a ++ [10] ++ unescape_newlines b)).
Proof.
  split.
  - intros Henv. split; [intros w; by apply getDriveClient_missing|].
    intros event w p Hpost Hdec Hne.
    rewrite (handler_unconfigured _ _ _ _ Hpost Hdec Hne Henv).
    eexists _, _. by repeat split.
  - intros Henv. pose proof Henv as (_ & (key & Hkey & _) & _).
    exists key. split; [done|]. split; [|split].
    + intros w. rewrite (getDriveClient_ok _ _ Henv).
      eexists _, _. split; [reflexivity|]. simpl. by rewrite Hkey.
    + intros a b. apply unescape_newlines_complete.
    + intros a b ->. apply unescape_newlines_app.
Qed.

Lemma upload_time_line r original verified :
  u "Upload time: " ++ nowIso r ∈ descriptionLines r original verified.
Proof.
  apply list_elem_of_In. unfold descriptionLines. apply filter_In. split.
  - do 9 right. by left.
  - reflexivity.
Qed.

(** C10.  The clock is read once, before the loop: the remote name of every
    file stored for a request carries the slug of that one instant, and its
    description the same [Upload time] line. *)
Theorem timestamp_computed_once event env w :
  ∃ code,
    Forall (fun q =>
              (∃ original,
                 name (requestBody q)
                 = u "YC-" ++ code ++ u "_" ++ slugify (toISOString w)
                   ++ u "_" ++ original)
              ∧ ∃ lines, description (requestBody q) = join [10] lines
                         ∧ u "Upload time: " ++ toISOString w ∈ lines)
      (creates (handler event env w).1.2).
Proof.
  destruct (creates (handler event env w).1.2) as [|q0 qs] eqn:Hqs.
  { exists []. constructor. }
  assert (q0 ∈ creates (handler event env w).1.2) as Hq0
    by (rewrite Hqs; apply list_elem_of_here).
  apply handler_requests in Hq0 as (p & _ & Hdec & _).
  exists (or_default
            (Some (strip_code (or_default (fields p !! u "camera_code") (u "no-code"))))
            (u "NA")).
  rewrite <- Hqs. apply Forall_forall. intros q Hq.
  apply handler_requests in Hq as (p' & f & Hdec' & _ & _ & ->).
  rewrite (decodes_to_det _ _ _ Hdec' Hdec) in *. split.
  - by exists (original_of f).
  - eexists. split; [reflexivity|].
    apply (upload_time_line
             (make_request (client_of env) (toISOString w) (fields p))).
Qed.

(** ** Further properties of the handler *)


(** Every run of the handler is one of the seven outcomes. *)
Lemma handler_outcome event env w : Outcome event env w (handler event env w).
Proof.
  destruct (decide (httpMethod event = u "OPTIONS")) as [Ho|Ho].
  { rewrite (handler_options _ _ _ Ho). by constructor. }
  destruct (decide (httpMethod event = u "POST")) as [Hpost|Hp];
    [|rewrite (handler_other_method _ _ _ Ho Hp); by constructor].
  destruct (parseMultipart_cases event w) as [Hu|[[err Herr]|[p Hdec]]].
  - rewrite (handler_parse_failed _ _ _ _ _ Hpost Hu).
    apply OutDecodeError; [done | done | by left].
  - rewrite (handler_parse_failed _ _ _ _ _ Hpost Herr).
    apply OutDecodeError; [done | done | by right].
  - destruct (files p) as [|f0 fs0] eqn:Hfiles.
    { rewrite (handler_empty _ _ _ _ Hpost Hdec Hfiles). by eapply OutNoFiles. }
    assert (files p ≠ []) as Hne by (by rewrite Hfiles).
    destruct (configured_dec env) as [Henv|Henv];
      [|rewrite (handler_unconfigured _ _ _ _ Hpost Hdec Hne Henv);
        by eapply OutNoConfig].
    rewrite (handler_post _ _ _ _ Hpost Hdec Hne Henv).
    set (r := make_request (client_of env) (toISOString w) (fields p)).
    destruct (outcomes_cases (drive r) (create_request r <$> files p) w)
      as [Hall|(k & e & Hk & Hlt)].
    + rewrite length_fmap in Hall.
      destruct (upload_loop_success r (files p) [] w Hall)
        as (news & Hloop & Hlen & _).
      rewrite Hloop. cbn [app]. by apply OutStored.
    + rewrite (upload_loop_failure r (files p) [] w k e Hk Hlt).
      apply OutRejected; try done.
      unfold outcome_at in Hk.
      destruct ((create_request r <$> files p) !! k) eqn:Hq; [|done].
      apply lookup_lt_Some in Hq. by rewrite length_fmap in Hq.
Qed.

(** *** The multipart decoder *)




Lemma collect_files evs acc :
  files (collect evs acc) = files acc ++ omap part_of evs.
Proof.
  revert acc. induction evs as [|[name value|fn fname mt chunks] evs IH];
    intros acc; simpl.
  - by rewrite app_nil_r.
  - by rewrite IH.
  - rewrite IH. simpl. by rewrite <- app_assoc.
Qed.

(** X2.  The decoded file list holds one part per ['file'] event, in the
    order of the events, untouched by the fields in between; the content of
    a part is its chunks put end to end and its size is the length of that
    content. *)
Theorem decoded_files event p :
  decodes_to event p →
  ∃ evs, busboy (hdrs_of event) (input_of event) = (evs, None)
         ∧ files p = omap part_of evs
         ∧ Forall (fun f => size f = N.of_nat (length (buffer f))) (files p).
Proof.
  intros (_ & evs & Hrun & <-). exists evs. split; [done|].
  rewrite collect_files. cbn [files app]. split; [done|].
  apply Forall_forall. intros f Hf.
  apply list_elem_of_omap in Hf as (e & _ & He).
  destruct e; [done|]. injection He as <-. done.
Qed.

(** X13.  Only the spellings [content-type] and [Content-Type] of the header
    name are read, the lower-case one first: when both are missing or empty
    the request is rejected whatever the other headers say, and a non-empty
    lower-case value decides alone. *)
Theorem content_type_spellings event w :
  (¬ present (hdrs_of event !! u "content-type") →
   ¬ present (hdrs_of event !! u "Content-Type") →
   parseMultipart event w
   = (w, [],
      inl (Error (u "Unsupported content type. Expected multipart/form-data."))))
  ∧ ∀ v, hdrs_of event !! u "content-type" = Some v → v ≠ [] →
         ¬ contains (u "multipart/form-data") v →
         parseMultipart event w
         = (w, [],
            inl (Error (u "Unsupported content type. Expected multipart/form-data."))).
Proof.
  split.
  - intros Hl Ht. apply parseMultipart_unsupported. unfold content_type_of.
    rewrite <- truthy_present in Hl, Ht.
    destruct (hdrs_of event !! u "content-type") as [[|c v]|]; try done;
      destruct (hdrs_of event !! u "Content-Type") as [[|c' v']|]; done.
  - intros v Hv Hne Hno. apply parseMultipart_unsupported.
    unfold content_type_of. rewrite Hv. destruct v as [|c v]; [done|].
    cbn [or_default]. destruct (includes _ (c :: v)) eqn:E; [|done].
    by apply includes_spec in E.
Qed.

(** *** The string helpers *)

(** X9.  The timestamp slug has the length of the timestamp, holds neither
    [:] nor [.], keeps every other unit where it was, and is unchanged by a
    second pass. *)
Theorem slugify_spec s :
  length (slugify s) = length s
  ∧ (58 ∉ slugify s) ∧ (46 ∉ slugify s)
  ∧ (∀ i c, s !! i = Some c → c ≠ 58 → c ≠ 46 → slugify s !! i = Some c)
  ∧ (∀ i c, s !! i = Some c → c = 58 ∨ c = 46 → slugify s !! i = Some 45)
  ∧ slugify (slugify s) = slugify s.
Proof.
  induction s as [|c s (Hlen & H58 & H46 & Hkeep & Hrepl & Hidem)].
  { repeat split; try done; by intros ?%elem_of_nil. }
  cbn [slugify].
  destruct ((c =? 58) || (c =? 46)) eqn:E.
  - apply orb_true_iff in E. rewrite !N.eqb_eq in E.
    split; [simpl; by rewrite Hlen|].
    split; [rewrite elem_of_cons; intros [?|?]; [lia | done]|].
    split; [rewrite elem_of_cons; intros [?|?]; [lia | done]|].
    split; [|split].
    + intros [|i] c' Hi H1 H2; simpl in *; [|by apply Hkeep].
      injection Hi as <-. lia.
    + intros [|i] c' Hi Hc; simpl in *; [done | by eapply Hrepl].
    + cbn [slugify]. change ((45 =? 58) || (45 =? 46)) with false.
      by rewrite Hidem.
  - apply orb_false_iff in E as [E1 E2]. rewrite N.eqb_neq in E1, E2.
    split; [simpl; by rewrite Hlen|].
    split; [rewrite elem_of_cons; intros [?|?]; [lia | done]|].
    split; [rewrite elem_of_cons; intros [?|?]; [lia | done]|].
    split; [|split].
    + intros [|i] c' Hi H1 H2; simpl in *; [done | by apply Hkeep].
    + intros [|i] c' Hi Hc; simpl in *; [|by eapply Hrepl].
      injection Hi as <-. lia.
    + cbn [slugify].
      assert ((c =? 58) || (c =? 46) = false) as ->
        by (apply orb_false_iff; by rewrite !N.eqb_neq).
      by rewrite Hidem.
Qed.

(** X11.  A private key without a backslash is passed on unchanged, and
    unescaping never makes a key longer. *)
Theorem unescape_newlines_plain s :
  (92 ∉ s → unescape_newlines s = s)
  ∧ (length (unescape_newlines s) ≤ length s)%nat.
Proof.
  remember (length s) as n eqn:Hn. revert s Hn.
  induction n as [n IH] using lt_wf_ind. intros s ->.
  destruct s as [|c [|d s]]; [by split | by split |].
  rewrite unescape_newlines_cons2. split.
  - intros Hno.
    assert (c ≠ 92) as Hc by (intros ->; apply Hno, list_elem_of_here).
    apply N.eqb_neq in Hc. rewrite Hc. cbn [andb]. f_equal.
    apply (IH (length (d :: s))); [simpl; lia | done |].
    intros Hin. apply Hno. by apply list_elem_of_further.
  - destruct ((c =? 92) && (d =? 110)).
    + pose proof (proj2 (IH (length s) ltac:(simpl; lia) s eq_refl)).
      simpl. lia.
    + pose proof (proj2 (IH (length (d :: s)) ltac:(simpl; lia) (d :: s) eq_refl)).
      simpl in *. lia.
Qed.

(** *** Failures before the upload *)


(** X4.  A POST request whose content type is not multipart is answered
    with 500 and the unsupported-content-type message; busboy is not
    started and nothing is sent to Drive. *)
Theorem handler_unsupported event env w :
  httpMethod event = u "POST" →
  includes (u "multipart/form-data") (content_type_of (hdrs_of event)) = false →
  handler event env w
  = (w,
     [ConsoleError
        (Error (u "Unsupported content type. Expected multipart/form-data."))],
     inr (mkResponse 500
            [ (u "Content-Type", u "application/json");
              (u "Access-Control-Allow-Origin", u "*") ]
            (JSON_stringify
               (JObj [ (u "ok", JBool false);
                       (u "error",
                        JStr (u "Unsupported content type. Expected multipart/form-data.")) ])))).
Proof.
  intros Hpost Hct.
  by rewrite (handler_parse_failed _ _ _ _ _ Hpost
                (parseMultipart_unsupported _ w Hct)).
Qed.


(** X6.  A request reaches Drive only for a POST whose body decodes to at
    least one file part under a complete configuration; and a run that
    sends nothing to Drive leaves the world as it found it. *)
Theorem drive_requests_need event env w :
  (creates (handler event env w).1.2 ≠ [] →
   httpMethod event = u "POST" ∧ configured env
   ∧ ∃ p, decodes_to event p ∧ files p ≠ [])
  ∧ (creates (handler event env w).1.2 = [] → (handler event env w).1.1 = w).
Proof.
  destruct (handler_outcome event env w)
    as [ | |t err Hpost Hparse Ht|p|p|p uploads Hpost Hdec Hne Henv Hlen
       |p k err Hpost Hdec Henv Hk]; cbn [fst snd].
  - by split.
  - by split.
  - split; [|done]. intros Hc. exfalso. apply Hc.
    rewrite creates_app. by destruct Ht as [-> | ->].
  - by split.
  - by split.
  - split; [eauto|]. cbn [creates]. rewrite creates_DriveCreate.
    intros Hnil. apply fmap_nil_inv in Hnil. done.
  - assert (files p ≠ []) as Hne by (intros Hnil; rewrite Hnil in Hk; simpl in Hk; lia).
    split; [eauto|]. cbn [creates]. rewrite creates_app, creates_DriveCreate.
    destruct (files p) as [|f fs]; [done|]. done.
Qed.

(** X14.  A 200 answer means that every file part was sent to Drive exactly
    once, in the order of the parts, and that the world is the one left by
    these requests. *)
Theorem ok_means_all_sent event env w :
  (∃ resp, (handler event env w).2 = inr resp ∧ statusCode resp = 200) →
  ∃ p, decodes_to event p ∧ files p ≠ [] ∧ configured env
       ∧ creates (handler event env w).1.2
         = (create_request (make_request (client_of env) (toISOString w) (fields p))
            <$> files p)
       ∧ (handler event env w).1.1
         = drive_world (client_of env).1
             (create_request (make_request (client_of env) (toISOString w) (fields p))
              <$> files p) w.
Proof.
  destruct (handler_outcome event env w)
    as [ | |t err Hpost Hparse Ht|p|p|p uploads Hpost Hdec Hne Henv Hlen
       |p k err Hpost Hdec Henv Hk]; cbn [fst snd];
    intros (resp & Hresp & H200); injection Hresp as <-;
    try discriminate H200.
  exists p. split; [done|]. split; [done|]. split; [done|]. split; [|done].
  cbn [creates]. by rewrite creates_DriveCreate.
Qed.

(** *** What is sent to Drive *)

Lemma request_contents event env w p f :
  decodes_to event p → f ∈ files p →
  match DriveCreate (client_of env).1
          (create_request (make_request (client_of env) (toISOString w) (fields p)) f)
  with
  | DriveCreate d q =>
      version d = u "v3"
      ∧ scopes d = [u "https://www.googleapis.com/auth/drive.file"]
      ∧ client_email (credentials d) = default [] (GDRIVE_CLIENT_EMAIL env)
      ∧ parents (requestBody q) = [default [] (GDRIVE_FOLDER_ID env)]
      ∧ request_fields q = u "id, name"
      ∧ ∃ p f, decodes_to event p ∧ f ∈ files p
               ∧ media q
                 = mkMedia (or_default (mimeType f) (u "video/mp4")) (buffer f)
  | _ => True
  end.
Proof. intros Hdec Hf. repeat split. by exists p, f. Qed.

(** X7.  Every call of [drive.files.create] goes through a v3 client
    restricted to the [drive.file] scope and bound to the configured
    account; it puts the file into the configured folder, asks for [id] and
    [name] only, and carries the bytes of one decoded file part under
    that part's MIME type, or [video/mp4] when the part has none. *)
Theorem drive_request_contents event env w :
  Forall (fun e =>
            match e with
            | DriveCreate d q =>
                version d = u "v3"
                ∧ scopes d = [u "https://www.googleapis.com/auth/drive.file"]
                ∧ client_email (credentials d) = default [] (GDRIVE_CLIENT_EMAIL env)
                ∧ parents (requestBody q) = [default [] (GDRIVE_FOLDER_ID env)]
                ∧ request_fields q = u "id, name"
                ∧ ∃ p f, decodes_to event p ∧ f ∈ files p
                         ∧ media q
                           = mkMedia (or_default (mimeType f) (u "video/mp4"))
                               (buffer f)
            | _ => True
            end)
    (handler event env w).1.2.
Proof.
  destruct (handler_outcome event env w)
    as [ | |t err Hpost Hparse Ht|p|p|p uploads Hpost Hdec Hne Henv Hlen
       |p k err Hpost Hdec Henv Hk]; cbn [fst snd].
  - constructor.
  - constructor.
  - destruct Ht as [-> | ->]; by repeat constructor.
  - by repeat constructor.
  - by repeat constructor.
  - constructor; [done|]. apply Forall_fmap, Forall_fmap, Forall_forall.
    intros f Hf. by apply request_contents.
  - constructor; [done|]. apply Forall_app. split; [|by repeat constructor].
    apply Forall_fmap, Forall_take, Forall_fmap, Forall_forall.
    intros f Hf. by apply request_contents.
Qed.

Lemma strip_code_allowed s : Forall allowed (strip_code s).
Proof.
  induction s as [|c s IH]; simpl; [constructor|].
  destruct (code_unit_ok c) eqn:E; [|done].
  constructor; [by apply code_unit_ok_allowed | done].
Qed.

Lemma safe_code_ok cc :
  or_default (Some (strip_code cc)) (u "NA") ≠ []
  ∧ Forall allowed (or_default (Some (strip_code cc)) (u "NA")).
Proof.
  pose proof (strip_code_allowed cc) as Hall.
  destruct (strip_code cc) as [|c k]; cbn [or_default]; [|by split].
  split; [done|]. change (u "NA") with [78; 65].
  repeat constructor; unfold allowed; lia.
Qed.

(** X8.  The camera code inside a remote name is never empty and holds
    letters, digits, [_] and [-] only, whatever was submitted; the original
    filename follows the slug as it was received. *)
Theorem remote_name_shape event env w :
  Forall (fun q =>
            ∃ code p f,
              decodes_to event p ∧ f ∈ files p
              ∧ name (requestBody q)
                = u "YC-" ++ code ++ u "_" ++ slugify (toISOString w) ++ u "_"
                  ++ or_default (filename f) (u "clip.mp4")
              ∧ code ≠ [] ∧ Forall allowed code)
    (creates (handler event env w).1.2).
Proof.
  apply Forall_forall. intros q Hq.
  apply handler_requests in Hq as (p & f & Hdec & _ & Hf & ->).
  destruct (safe_code_ok (or_default (fields p !! u "camera_code") (u "no-code")))
    as [Hne Hall].
  eexists _, p, f. split; [done|]. split; [done|]. split; [reflexivity|]. by split.
Qed.

(** X10.  The description starts with the project label, the original
    filename, the camera id, the camera code and the location; then come
    the date, the person, the contact and the share link, each only when it
    is not empty; the upload time and the verification line close it. *)
Theorem descriptionLines_spec r original verified :
  descriptionLines r original verified
  = [ u "Yellow Camera Project raw clip";
      u "Original filename: " ++ original;
      u "Camera ID: " ++ cameraId r;
      u "Camera code: " ++ cameraCode r;
      u "Location: " ++ location r ]
    ++ optional (u "Date filmed: ") (filmed r)
    ++ optional (u "Person: ") (nickname r)
    ++ optional (u "Contact: ") (email r)
    ++ optional (u "Share link: ") (shareLink r)
    ++ [ u "Upload time: " ++ nowIso r;
         u "Verified Yellow Camera filename pattern: "
         ++ (if verified then u "yes" else u "no") ].
Proof.
  unfold descriptionLines, optional, optional_line.
  destruct (filmed r), (nickname r), (email r), (shareLink r); reflexivity.
Qed.

(** X12.  A file part without a filename, or with an empty one, is stored
    under the name [clip.mp4], reported with that original name, and never
    counted as verified. *)
Theorem nameless_file r f x :
  truthy (filename f) = false →
  name (requestBody (create_request r f))
  = u "YC-" ++ or_default (Some (safeCameraCode r)) (u "NA") ++ u "_"
    ++ timestampSlug r ++ u "_" ++ u "clip.mp4"
  ∧ originalName (upload_entry f x) = u "clip.mp4"
  ∧ verified (upload_entry f x) = false.
Proof.
  intros Hno. unfold upload_entry, create_request, newName, original_of.
  destruct (filename f) as [[|c n]|]; try done.
Qed.

(** *** The classifier once more *)

Lemma ascii_upper_idem c : ascii_upper (ascii_upper c) = ascii_upper c.
Proof.
  unfold ascii_upper.
  destruct ((97 <=? c) && (c <=? 122)) eqn:E; [|by rewrite E].
  apply andb_true_iff in E as [E1 E2]. apply N.leb_le in E1, E2.
  assert ((97 <=? c - 32) = false) as -> by (apply N.leb_gt; lia). done.
Qed.

Lemma ascii_upper_fmap_idem (s : jsstring) :
  ascii_upper <$> (ascii_upper <$> s) = ascii_upper <$> s.
Proof.
  induction s as [|c s IH]; [done|].
  rewrite !fmap_cons, ascii_upper_idem. by rewrite IH.
Qed.

Lemma ascii_upper_ascii c : c < 128 → ascii_upper c < 128.
Proof. unfold ascii_upper. destruct ((97 <=? c) && (c <=? 122)); lia. Qed.

Lemma isLikelyGoProName_ascii s :
  Forall (fun c => c < 128) s →
  isLikelyGoProName (Some s)
  = test_anchored re_hero3 (ascii_upper <$> s)
    || test_anchored re_chaptered (ascii_upper <$> s).
Proof.
  intros Hs. unfold isLikelyGoProName. destruct s as [|c s]; [done|].
  simpl truthy. cbn [negb]. change (default [] (Some (c :: s))) with (c :: s).
  rewrite (toUpperCase_ascii _ Hs).
  by destruct (test_anchored re_hero3 _), (test_anchored re_chaptered _).
Qed.

Lemma accepted_ascii s :
  case_tables_ok upperNonAscii →
  isLikelyGoProName (Some s) = true → Forall (fun c => c < 128) s.
Proof.
  intros tables H.
  destruct (decide (Forall (fun c => c < 128) s)) as [Hs|Hs]; [done|]. exfalso.
  pose proof (toUpperCase_bad _ tables Hs) as Hbad.
  apply Exists_exists in Hbad as (c & Hc & Hfalse).
  unfold isLikelyGoProName in H.
  destruct s as [|c0 s]; [done|]. simpl truthy in H. cbn [negb default] in H.
  destruct (test_anchored re_hero3 _) eqn:E1.
  - apply test_anchored_alphabet in E1; [|apply re_hero3_alphabet].
    rewrite Forall_forall in E1. specialize (E1 c Hc). congruence.
  - destruct (test_anchored re_chaptered _) eqn:E2; [|done].
    apply test_anchored_alphabet in E2; [|apply re_chaptered_alphabet].
    rewrite Forall_forall in E2. specialize (E2 c Hc). congruence.
Qed.

(** X15.  A name that counts as verified has exactly twelve code units, all
    ASCII; and on ASCII names the answer does not depend on letter case. *)
Theorem verified_names_shape :
  (case_tables_ok upperNonAscii →
   ∀ s, isLikelyGoProName (Some s) = true →
        length s = 12%nat ∧ Forall (fun c => c < 128) s)
  ∧ ∀ s, Forall (fun c => c < 128) s →
         isLikelyGoProName (Some (ascii_upper <$> s)) = isLikelyGoProName (Some s).
Proof.
  split.
  - intros tables s H. pose proof (accepted_ascii _ tables H) as Hs.
    split; [|done]. rewrite (isLikelyGoProName_ascii _ Hs) in H.
    apply orb_true_iff in H as [H|H]; apply test_anchored_Forall2 in H;
      apply Forall2_length in H; rewrite length_fmap in H; by rewrite <- H.
  - intros s Hs. rewrite (isLikelyGoProName_ascii _ Hs).
    rewrite isLikelyGoProName_ascii.
    + by rewrite ascii_upper_fmap_idem.
    + apply Forall_fmap. eapply Forall_impl; [exact Hs|].
      intros c. apply ascii_upper_ascii.
Qed.

End Upload.

(** ** Concrete runs *)

(** The identity is an admissible stand-in for the case tables: it leaves
    a non-ASCII unit in place. *)
Lemma identity_tables_ok : case_tables_ok (fun run => run).
Proof.
  intros [|c run] Hne Hrun; [done|]. apply Exists_cons_hd.
  inversion Hrun; subst.
  destruct (in_alphabet c) eqn:E; [|done].
  apply in_alphabet_ascii in E. lia.
Qed.

Lemma isLikelyGoProName_spec_witness :
  isLikelyGoProName (fun run => run) (Some (u "gopr0007.mp4")) = true
  ↔ spec_known_device (u "gopr0007.mp4").
Proof.
  apply (proj1 (isLikelyGoProName_spec (fun run => run) identity_tables_ok)).
Defined.

Local Abbreviation demo_handler evs :=
  (handler Demo.upper nat Demo.now Demo.Buffer_from (Demo.busboy evs) Demo.create).

Local Abbreviation demo_parsed evs := (collect evs (mkParsed ∅ [])).

Lemma demo_decodes_to evs :
  decodes_to Demo.Buffer_from (Demo.busboy evs) Demo.post (demo_parsed evs).
Proof. split; [reflexivity | by exists evs]. Qed.

Lemma demo_configured : configured Demo.env.
Proof. repeat split; eexists; (split; [reflexivity | done]). Qed.

Lemma no_camera_code_prefix_witness :
  Forall (fun q => starts_with (u "YC-no-code_") (name (requestBody q)) = true)
    (creates (demo_handler Demo.one_clip Demo.post Demo.env 0%nat).1.2).
Proof.
  apply (no_camera_code_prefix Demo.upper nat Demo.now Demo.Buffer_from
           (Demo.busboy Demo.one_clip) Demo.create Demo.post Demo.env 0%nat
           (demo_parsed Demo.one_clip));
    [reflexivity | apply demo_decodes_to | reflexivity].
Defined.

(** Without a [camera_code] field the remote name starts with [YC-no-code_],
    not with [YC-NA_]. *)
Lemma no_camera_code_counterexample :
  httpMethod Demo.post = u "POST"
  ∧ fields (demo_parsed Demo.one_clip) !! u "camera_code" = None
  ∧ (fun q => name (requestBody q))
    <$> creates (demo_handler Demo.one_clip Demo.post Demo.env 0%nat).1.2
    = [u "YC-no-code_2024-01-02T03-04-00-000Z_random.mov"]
  ∧ ¬ Forall (fun q => starts_with (u "YC-NA_") (name (requestBody q)) = true)
        (creates (demo_handler Demo.one_clip Demo.post Demo.env 0%nat).1.2).
Proof.
  assert ((fun q => name (requestBody q))
          <$> creates (demo_handler Demo.one_clip Demo.post Demo.env 0%nat).1.2
          = [u "YC-no-code_2024-01-02T03-04-00-000Z_random.mov"]) as Hnames
    by (vm_compute; reflexivity).
  split; [reflexivity|]. split; [reflexivity|]. split; [exact Hnames|].
  intros H.
  apply (Forall_fmap (fun q => name (requestBody q))
           (fun n => starts_with (u "YC-NA_") n = true)) in H.
  rewrite Hnames in H. inversion H as [|? ? Hhead _]. discriminate Hhead.
Qed.

Lemma camera_code_sanitised_witness :
  strip_code (u "cam 07!") = filter allowed (u "cam 07!")
  ∧ expected_code (u "cam 07!") = u "cam07"
  ∧ Forall (fun q => ∃ f, f ∈ files (demo_parsed Demo.spaced_code)
              ∧ name (requestBody q)
                = u "YC-" ++ expected_code (u "cam 07!") ++ u "_"
                  ++ slugify (Demo.now 0%nat) ++ u "_" ++ original_of f)
      (creates (demo_handler Demo.spaced_code Demo.post Demo.env 0%nat).1.2).
Proof.
  destruct (camera_code_sanitised Demo.upper nat Demo.now Demo.Buffer_from
              (Demo.busboy Demo.spaced_code) Demo.create Demo.post Demo.env 0%nat
              (demo_parsed Demo.spaced_code) (u "cam 07!")
              (demo_decodes_to Demo.spaced_code) eq_refl)
    as (Hstrip & _ & _ & Hnames).
  split; [exact Hstrip|]. split; [reflexivity | exact Hnames].
Defined.

(** An empty [camera_code] gives [YC-no-code_...], not [YC-NA_...]. *)
Lemma empty_camera_code_counterexample :
  fields (demo_parsed Demo.empty_code) !! u "camera_code" = Some []
  ∧ (fun q => name (requestBody q))
    <$> creates (demo_handler Demo.empty_code Demo.post Demo.env 0%nat).1.2
    = [u "YC-no-code_2024-01-02T03-04-00-000Z_GOPR0007.MP4"]
  ∧ (fun q => name (requestBody q))
    <$> creates (demo_handler Demo.empty_code Demo.post Demo.env 0%nat).1.2
    ≠ [u "YC-NA_2024-01-02T03-04-00-000Z_GOPR0007.MP4"].
Proof.
  assert ((fun q => name (requestBody q))
          <$> creates (demo_handler Demo.empty_code Demo.post Demo.env 0%nat).1.2
          = [u "YC-no-code_2024-01-02T03-04-00-000Z_GOPR0007.MP4"]) as Hnames
    by (vm_compute; reflexivity).
  split; [reflexivity|]. split; [exact Hnames|].
  rewrite Hnames. intros H. vm_compute in H. discriminate H.
Qed.

Lemma handler_no_files_witness :
  demo_handler Demo.fields_only Demo.post Demo.env 0%nat
  = (0%nat,
     [BusboyRun (hdrs_of Demo.post) (input_of Demo.Buffer_from Demo.post)],
     inr (mkResponse 400 [(u "Content-Type", u "application/json")]
            (JSON_stringify
               (JObj [ (u "ok", JBool false);
                       (u "error", JStr (u "No video files found in upload.")) ])))).
Proof.
  apply (handler_no_files Demo.upper nat Demo.now Demo.Buffer_from
           (Demo.busboy Demo.fields_only) Demo.create Demo.post Demo.env 0%nat
           Demo.fields_only);
    [reflexivity | reflexivity | reflexivity | by repeat constructor].
Defined.

Lemma handler_all_stored_witness :
  ∃ uploads,
    (demo_handler Demo.two_clips Demo.post Demo.env 0%nat).2
    = inr (mkResponse 200 cors_json_headers (JSON_stringify (success_json uploads)))
    ∧ length uploads = 2%nat
    ∧ originalName <$> uploads = [u "GOPR0007.MP4"; u "random.mov"].
Proof.
  destruct (handler_all_stored Demo.upper nat Demo.now Demo.Buffer_from
              (Demo.busboy Demo.two_clips) Demo.create Demo.post Demo.env 0%nat
              (demo_parsed Demo.two_clips))
    as (uploads & Hrun & Hlen & Hentries).
  - reflexivity.
  - apply demo_decodes_to.
  - discriminate.
  - apply demo_configured.
  - intros [|[|j]] Hj;
      [eexists; reflexivity | eexists; reflexivity
      | exfalso; vm_compute in Hj; lia].
  - exists uploads. split; [|split; [exact Hlen|]].
    { rewrite Hrun. unfold success_json. rewrite Hlen. reflexivity. }
    destruct (Hentries 0%nat _ eq_refl) as (x0 & _ & H0).
    destruct (Hentries 1%nat _ eq_refl) as (x1 & _ & H1).
    destruct uploads as [|a [|b [|c rest]]]; try discriminate Hlen.
    injection H0 as ->. injection H1 as ->. reflexivity.
Defined.

Lemma upload_failure_aborts_witness :
  length (creates (demo_handler Demo.three_clips Demo.post Demo.env 0%nat).1.2)
  = 2%nat
  ∧ (demo_handler Demo.three_clips Demo.post Demo.env 0%nat).2
    = inr (mkResponse 500 cors_json_headers
             (JSON_stringify
                (JObj [ (u "ok", JBool false);
                        (u "error", JStr (u "quota exceeded")) ]))).
Proof.
  rewrite (proj1 (upload_failure_aborts Demo.upper nat Demo.now Demo.Buffer_from
                    (Demo.busboy Demo.three_clips) Demo.create Demo.post Demo.env
                    0%nat (demo_parsed Demo.three_clips) eq_refl
                    (demo_decodes_to Demo.three_clips) demo_configured)
             1%nat (Error (u "quota exceeded")) eq_refl
             ltac:(intros [|j] Hj; [eexists; reflexivity | lia])).
  split; reflexivity.
Defined.

Lemma unsupported_content_type_witness :
  parseMultipart nat Demo.Buffer_from (Demo.busboy Demo.one_clip) Demo.plain 0%nat
  = (0%nat, [],
     inl (Error (u "Unsupported content type. Expected multipart/form-data."))).
Proof.
  apply (unsupported_content_type nat Demo.Buffer_from (Demo.busboy Demo.one_clip)
           Demo.plain 0%nat).
  intros k v Hkv _ Hc. change (hdrs_of Demo.plain)
    with ({[ u "Content-Type" := u "application/json" ]} : gmap jsstring jsstring)
    in Hkv.
  apply lookup_singleton_Some in Hkv as [_ <-].
  apply includes_spec in Hc. discriminate Hc.
Defined.

Lemma method_check_witness :
  demo_handler Demo.one_clip Demo.preflight Demo.env 0%nat
  = (0%nat, [],
     inr (mkResponse 204
            [ (u "Access-Control-Allow-Origin", u "*");
              (u "Access-Control-Allow-Methods", u "POST, OPTIONS");
              (u "Access-Control-Allow-Headers", u "Content-Type") ]
            [])).
Proof.
  apply (proj1 (method_check Demo.upper nat Demo.now Demo.Buffer_from
                  (Demo.busboy Demo.one_clip) Demo.create Demo.preflight Demo.env
                  0%nat)).
  reflexivity.
Defined.

Lemma bare_env_not_configured : ¬ configured Demo.bare_env.
Proof. intros (_ & (k & Hk & _) & _). discriminate Hk. Qed.

Lemma missing_configuration_witness :
  getDriveClient nat Demo.bare_env 0%nat
  = (0%nat, [],
     inl (Error (u "Missing one or more env vars: GDRIVE_CLIENT_EMAIL, GDRIVE_PRIVATE_KEY, GDRIVE_FOLDER_ID")))
  ∧ ∃ d folder,
      getDriveClient nat Demo.env 0%nat = (0%nat, [], inr (d, folder))
      ∧ private_key (credentials d)
        = u "-----BEGIN" ++ [10] ++ u "KEY" ++ [10] ++ u "-----END".
Proof.
  split.
  - apply (proj1 (proj1 (missing_configuration Demo.upper nat Demo.now
                           Demo.Buffer_from (Demo.busboy Demo.one_clip)
                           Demo.create Demo.bare_env)
                    bare_env_not_configured)).
  - destruct (proj2 (missing_configuration Demo.upper nat Demo.now
                       Demo.Buffer_from (Demo.busboy Demo.one_clip)
                       Demo.create Demo.env)
                demo_configured)
      as (key & Hkey & Hclient & _).
    destruct (Hclient 0%nat) as (d & folder & Hrun & Hpk).
    exists d, folder. split; [exact Hrun|].
    rewrite Hpk. injection Hkey as <-. reflexivity.
Defined.

(** In the small world the clock moves on when the first file is stored;
    the second file still carries the slug of the instant read before the
    loop. *)
Lemma timestamp_computed_once_demo :
  (fun q => name (requestBody q))
  <$> creates (demo_handler Demo.two_clips Demo.post Demo.env 0%nat).1.2
  = [ u "YC-no-code_2024-01-02T03-04-00-000Z_GOPR0007.MP4";
      u "YC-no-code_2024-01-02T03-04-00-000Z_random.mov" ]
  ∧ Demo.now 1%nat ≠ Demo.now 0%nat.
Proof.
  split; [vm_compute; reflexivity|]. intros H. vm_compute in H. discriminate H.
Qed.

(** *** Runs for the further properties *)


Lemma decoded_files_witness :
  ∃ evs,
    Demo.busboy Demo.twice_named (hdrs_of Demo.post)
      (input_of Demo.Buffer_from Demo.post) = (evs, None)
    ∧ files (demo_parsed Demo.twice_named) = omap part_of evs
    ∧ Forall (fun f => size f = N.of_nat (length (buffer f)))
        (files (demo_parsed Demo.twice_named)).
Proof.
  apply (decoded_files Demo.Buffer_from (Demo.busboy Demo.twice_named) Demo.post
           (demo_parsed Demo.twice_named) (demo_decodes_to Demo.twice_named)).
Defined.

Lemma shouting_no_lower : ¬ present (hdrs_of Demo.shouting !! u "content-type").
Proof. intros (v & Hv & _). vm_compute in Hv. discriminate Hv. Qed.

Lemma shouting_no_title : ¬ present (hdrs_of Demo.shouting !! u "Content-Type").
Proof. intros (v & Hv & _). vm_compute in Hv. discriminate Hv. Qed.

Lemma content_type_spellings_witness :
  parseMultipart nat Demo.Buffer_from (Demo.busboy Demo.one_clip) Demo.shouting 0%nat
  = (0%nat, [],
     inl (Error (u "Unsupported content type. Expected multipart/form-data."))).
Proof.
  apply (proj1 (content_type_spellings nat Demo.Buffer_from
                  (Demo.busboy Demo.one_clip) Demo.shouting 0%nat)
           shouting_no_lower shouting_no_title).
Defined.

Lemma slugify_spec_witness : slugify (Demo.now 0%nat) !! 13%nat = Some 45.
Proof.
  apply (proj1 (proj2 (proj2 (proj2 (proj2 (slugify_spec (Demo.now 0%nat))))))
           13%nat 58); [reflexivity | by left].
Defined.

Lemma plain_key_no_backslash : 92 ∉ u "KEY".
Proof.
  intros H. apply list_elem_of_In in H. vm_compute in H.
  repeat (destruct H as [H|H]; [discriminate H|]). exact H.
Qed.

Lemma unescape_newlines_plain_witness : unescape_newlines (u "KEY") = u "KEY".
Proof.
  apply (proj1 (unescape_newlines_plain (u "KEY")) plain_key_no_backslash).
Defined.


Lemma handler_unsupported_witness :
  demo_handler Demo.one_clip Demo.plain Demo.env 0%nat
  = (0%nat,
     [ConsoleError
        (Error (u "Unsupported content type. Expected multipart/form-data."))],
     inr (mkResponse 500
            [ (u "Content-Type", u "application/json");
              (u "Access-Control-Allow-Origin", u "*") ]
            (JSON_stringify
               (JObj [ (u "ok", JBool false);
                       (u "error",
                        JStr (u "Unsupported content type. Expected multipart/form-data.")) ])))).
Proof.
  apply (handler_unsupported Demo.upper nat Demo.now Demo.Buffer_from
           (Demo.busboy Demo.one_clip) Demo.create Demo.plain Demo.env 0%nat
           eq_refl eq_refl).
Defined.

Lemma drive_requests_need_witness :
  httpMethod Demo.post = u "POST" ∧ configured Demo.env
  ∧ ∃ p, decodes_to Demo.Buffer_from (Demo.busboy Demo.one_clip) Demo.post p
         ∧ files p ≠ [].
Proof.
  apply (proj1 (drive_requests_need Demo.upper nat Demo.now Demo.Buffer_from
                  (Demo.busboy Demo.one_clip) Demo.create Demo.post Demo.env 0%nat)).
  intros H. vm_compute in H. discriminate H.
Defined.

Lemma ok_means_all_sent_witness :
  ∃ p, decodes_to Demo.Buffer_from (Demo.busboy Demo.two_clips) Demo.post p
       ∧ files p ≠ [] ∧ configured Demo.env
       ∧ creates (demo_handler Demo.two_clips Demo.post Demo.env 0%nat).1.2
         = (create_request Demo.upper
              (make_request (client_of Demo.env) (Demo.now 0%nat) (fields p))
            <$> files p)
       ∧ (demo_handler Demo.two_clips Demo.post Demo.env 0%nat).1.1
         = drive_world nat Demo.create (client_of Demo.env).1
             (create_request Demo.upper
                (make_request (client_of Demo.env) (Demo.now 0%nat) (fields p))
              <$> files p) 0%nat.
Proof.
  apply (ok_means_all_sent Demo.upper nat Demo.now Demo.Buffer_from
           (Demo.busboy Demo.two_clips) Demo.create Demo.post Demo.env 0%nat).
  eexists. split; reflexivity.
Defined.

Lemma nameless_file_witness :
  originalName (upload_entry Demo.upper Demo.nameless (mkCreateData [] []))
  = u "clip.mp4"
  ∧ verified (upload_entry Demo.upper Demo.nameless (mkCreateData [] [])) = false.
Proof.
  apply (proj2 (nameless_file Demo.upper
                  (make_request (client_of Demo.env) (Demo.now 0%nat) ∅)
                  Demo.nameless (mkCreateData [] []) eq_refl)).
Defined.

Lemma sample_name_ascii : Forall (fun c => c < 128) (u "gopr0007.mp4").
Proof. apply Forall_forall. intros c Hc. apply list_elem_of_In in Hc.
  vm_compute in Hc. repeat (destruct Hc as [<-|Hc]; [reflexivity|]). destruct Hc.
Qed.

Lemma verified_names_shape_witness :
  length (u "gopr0007.mp4") = 12%nat
  ∧ isLikelyGoProName Demo.upper (Some (ascii_upper <$> u "gopr0007.mp4"))
    = isLikelyGoProName Demo.upper (Some (u "gopr0007.mp4")).
Proof.
  split.
  - apply (proj1 (verified_names_shape Demo.upper) identity_tables_ok
             (u "gopr0007.mp4") eq_refl).
  - apply (proj2 (verified_names_shape Demo.upper) (u "gopr0007.mp4")
             sample_name_ascii).
Defined.
